(** * homebridge-meross: the single-channel switch handler

    A shallow embedding of [src/lib/device/switch-single.js].

    The handler is a JavaScript object whose methods mutate its fields,
    call collaborators (the HomeKit service, the Eve history service, the
    platform's transport, the logger, timers) and may throw.  Each method is
    embedded as a computation in a small monad [M] that threads the object's
    fields, records every call to a collaborator in an ordered trace, and
    either returns or throws.  Field writes made before a throw stay made,
    as in JavaScript.

    Numbers.  The device reports power and voltage as integers (milliwatts
    and tenths of a volt), so raw readings are [Z].  The values handed to
    HomeKit are quotients of integers; they are kept as exact rationals in
    lowest terms ([Q] after [Qred]), so that two equal numbers are equal
    terms.  [Math.round] is rounding half up, [floor (x + 1/2)]. *)

From Stdlib Require Import ZArith QArith Qround Qabs Bool List String Ascii Lia.
Import ListNotations.

Local Open Scope string_scope.
Local Open Scope Z_scope.
Local Open Scope list_scope.

(** ** JavaScript values used by the handler *)

(** A property that may be absent, or hold [undefined], is an [option]; both
    cases are [None].

    Truthiness of a field that holds a boolean or [undefined]. *)
Definition truthy (o : option bool) : bool :=
  match o with Some b => b | None => false end.

(** [a !== b] on numbers-or-undefined, booleans-or-undefined and
    strings-or-undefined. *)
Definition strictNeZ (a b : option Z) : bool :=
  match a, b with
  | Some x, Some y => negb (x =? y)
  | None, None => false
  | _, _ => true
  end.

Definition strictNeBool (a b : option bool) : bool :=
  match a, b with
  | Some x, Some y => negb (Bool.eqb x y)
  | None, None => false
  | _, _ => true
  end.

Definition strictNeString (a b : option string) : bool :=
  match a, b with
  | Some x, Some y => negb (String.eqb x y)
  | None, None => false
  | _, _ => true
  end.

(** [Math.round]: the nearest integer, halves rounded up. *)
Definition Math_round (x : Q) : Z := Qfloor (x + (1 # 2))%Q.

(** [a > b] on numbers. *)
Definition Qgtb (a b : Q) : bool := negb (Qle_bool a b).

(** [hay.includes(needle)]. *)
Fixpoint includes (hay needle : string) : bool :=
  String.prefix needle hay
  || match hay with
     | EmptyString => false
     | String _ rest => includes rest needle
     end.

(** [s.toUpperCase()] on the ASCII letters a MAC address is written with. *)
Definition upcase (c : ascii) : ascii :=
  let n := nat_of_ascii c in
  if (97 <=? n)%nat && (n <=? 122)%nat then ascii_of_nat (n - 32) else c.

Fixpoint toUpperCase (s : string) : string :=
  match s with
  | EmptyString => EmptyString
  | String c rest => String (upcase c) (toUpperCase rest)
  end.

(** ** Data *)

(** A telemetry fragment: [togglex[0]], [toggle] or [electricity].  Only the
    three properties [applyUpdate] reads are kept; [hasProperty(data, 'power')]
    is [power data] being [Some _]. *)
Record fragment := {
  onoff : option Z;
  power : option Z;
  voltage : option Z
}.

(** [accessory.context]. *)
Record context := {
  macAddress : option string;
  hardware : option string;
  ipAddress : option string;
  firmware : option string;
  isOnline : option bool
}.

(** The fields of [this] the methods read or write.  [isToggleX],
    [cacheInUse], [cachePower] and [cacheVoltage] are not assigned by the
    constructor, so they start out [undefined]. *)
Record device := {
  enableLogging : bool;
  enableDebugLogging : bool;
  inUsePowerThreshold : Q;
  cacheState : bool;
  cacheInUse : option bool;
  cachePower : option Z;
  cacheVoltage : option Z;
  isToggleX : option bool;
  updateInProgress : bool;
  accessory : context
}.

Definition set_cacheState (v : bool) (d : device) : device :=
  {| enableLogging := enableLogging d; enableDebugLogging := enableDebugLogging d;
     inUsePowerThreshold := inUsePowerThreshold d;
     cacheState := v; cacheInUse := cacheInUse d; cachePower := cachePower d;
     cacheVoltage := cacheVoltage d; isToggleX := isToggleX d;
     updateInProgress := updateInProgress d; accessory := accessory d |}.

Definition set_cacheInUse (v : option bool) (d : device) : device :=
  {| enableLogging := enableLogging d; enableDebugLogging := enableDebugLogging d;
     inUsePowerThreshold := inUsePowerThreshold d;
     cacheState := cacheState d; cacheInUse := v; cachePower := cachePower d;
     cacheVoltage := cacheVoltage d; isToggleX := isToggleX d;
     updateInProgress := updateInProgress d; accessory := accessory d |}.

Definition set_cachePower (v : option Z) (d : device) : device :=
  {| enableLogging := enableLogging d; enableDebugLogging := enableDebugLogging d;
     inUsePowerThreshold := inUsePowerThreshold d;
     cacheState := cacheState d; cacheInUse := cacheInUse d; cachePower := v;
     cacheVoltage := cacheVoltage d; isToggleX := isToggleX d;
     updateInProgress := updateInProgress d; accessory := accessory d |}.

Definition set_cacheVoltage (v : option Z) (d : device) : device :=
  {| enableLogging := enableLogging d; enableDebugLogging := enableDebugLogging d;
     inUsePowerThreshold := inUsePowerThreshold d;
     cacheState := cacheState d; cacheInUse := cacheInUse d; cachePower := cachePower d;
     cacheVoltage := v; isToggleX := isToggleX d;
     updateInProgress := updateInProgress d; accessory := accessory d |}.

Definition set_isToggleX (v : option bool) (d : device) : device :=
  {| enableLogging := enableLogging d; enableDebugLogging := enableDebugLogging d;
     inUsePowerThreshold := inUsePowerThreshold d;
     cacheState := cacheState d; cacheInUse := cacheInUse d; cachePower := cachePower d;
     cacheVoltage := cacheVoltage d; isToggleX := v;
     updateInProgress := updateInProgress d; accessory := accessory d |}.

Definition set_updateInProgress (v : bool) (d : device) : device :=
  {| enableLogging := enableLogging d; enableDebugLogging := enableDebugLogging d;
     inUsePowerThreshold := inUsePowerThreshold d;
     cacheState := cacheState d; cacheInUse := cacheInUse d; cachePower := cachePower d;
     cacheVoltage := cacheVoltage d; isToggleX := isToggleX d;
     updateInProgress := v; accessory := accessory d |}.

Definition set_accessory (f : context -> context) (d : device) : device :=
  {| enableLogging := enableLogging d; enableDebugLogging := enableDebugLogging d;
     inUsePowerThreshold := inUsePowerThreshold d;
     cacheState := cacheState d; cacheInUse := cacheInUse d; cachePower := cachePower d;
     cacheVoltage := cacheVoltage d; isToggleX := isToggleX d;
     updateInProgress := updateInProgress d; accessory := f (accessory d) |}.

Definition set_macAddress (v : option string) (c : context) : context :=
  {| macAddress := v; hardware := hardware c; ipAddress := ipAddress c;
     firmware := firmware c; isOnline := isOnline c |}.

Definition set_hardware (v : option string) (c : context) : context :=
  {| macAddress := macAddress c; hardware := v; ipAddress := ipAddress c;
     firmware := firmware c; isOnline := isOnline c |}.

Definition set_ipAddress (v : option string) (c : context) : context :=
  {| macAddress := macAddress c; hardware := hardware c; ipAddress := v;
     firmware := firmware c; isOnline := isOnline c |}.

Definition set_firmware (v : option string) (c : context) : context :=
  {| macAddress := macAddress c; hardware := hardware c; ipAddress := ipAddress c;
     firmware := v; isOnline := isOnline c |}.

Definition set_isOnline (v : option bool) (c : context) : context :=
  {| macAddress := macAddress c; hardware := hardware c; ipAddress := ipAddress c;
     firmware := firmware c; isOnline := v |}.

(** The payload of an outbound request. *)
Inductive payload :=
| togglex_payload (onoff channel : Z)   (* { togglex: { onoff, channel } } *)
| toggle_payload (onoff : Z)            (* { toggle: { onoff } } *)
| empty_payload.                        (* {} *)

Record command := {
  namespace : string;
  cmd_payload : payload
}.

(** The response to [Appliance.System.All]. *)
Record hardwareInfo := {
  hw_macAddress : option string;
  hw_version : option string
}.

Record firmwareInfo := {
  fw_innerIp : option string;
  fw_version : option string
}.

Record onlineInfo := { status : Z }.

Record systemInfo := {
  sys_hardware : option hardwareInfo;
  sys_firmware : option firmwareInfo;
  sys_online : option onlineInfo
}.

Record digestInfo := {
  togglex : option (list fragment);
  toggle : option fragment
}.

Record allInfo := {
  digest : option digestInfo;
  system : option systemInfo
}.

Record pollPayload := { all : option allInfo }.

(** The response to [Appliance.Control.Electricity]. *)
Record powerPayload := { electricity : option fragment }.

(** A push message. *)
Record pushPayload := {
  push_togglex : option (list fragment);
  push_toggle : option fragment
}.

Record pushParams := { params_payload : option pushPayload }.

(** [x && x[0]] on an array-or-undefined. *)
Definition firstOf {A : Type} (xs : option (list A)) : option A :=
  match xs with
  | Some (x :: _) => Some x
  | _ => None
  end.

(** ** Errors *)

Inductive jsError :=
| TimeoutError                       (* p-timeout's, raised by the queue *)
| TypeError (property : string)      (* reading [property] of undefined *)
| Error (message : string)           (* any other rejection *)
| HapStatusError (code : Z).         (* thrown to HomeKit *)

(** How an awaited call to the transport ends.  The queue is built with
    [timeout: 10000, throwOnTimeout: true]: a task still waiting for its
    reply after ten seconds makes [queue.add] reject with [TimeoutError],
    which is [Rejected TimeoutError] here, and a run on it gives the state
    and the calls at the time the caller's [catch] block is over.  The task
    itself is only abandoned, not cancelled: it stays at its [await], and
    when the reply does arrive it runs on from there.  What it then does is
    given, per method, by [commandTaskResumed], [powerTaskResumed] and
    [setupTaskResumed] below. *)
Inductive outcome (A : Type) :=
| Resolved (res : A)
| Rejected (err : jsError).

Arguments Resolved {A} res.
Arguments Rejected {A} err.

(** ** Calls to collaborators *)

Inductive characteristic := On | OutletInUse | CurrentConsumption | Voltage.

Inductive value :=
| VBool (b : bool)
| VNum (q : Q).

Inductive historyEntry :=
| entry_status (n : Z)     (* { status: n } *)
| entry_power (n : Z).     (* { power: n } *)

Inductive logMessage :=
| currentState (on : bool)
| currentPower (w : Q)
| currentInUse (yes : bool)
| currentVoltage (v : Q)
| incPoll
| incMQTT
| sendFailed (eText : string)
| reqFailed (eText : string)
| refFailed (eText : string)
| powerFailed (eText : string).

(** The one callback the handler hands to [setTimeout]. *)
Inductive callback := revertOn.

Inductive event :=
| UpdateCharacteristic (c : characteristic) (v : value)
| AddEntry (e : historyEntry)
| Log (m : logMessage)
| Warn (m : logMessage)
| SendUpdate (c : command)
| UpdateAccessory
| SetTimeout (cb : callback) (ms : Z).

(** ** The monad *)

Inductive completion (A : Type) :=
| Normal (a : A)
| Throw (e : jsError).

Arguments Normal {A} a.
Arguments Throw {A} e.

Definition M (A : Type) : Type := device -> completion A * device * list event.

Definition ret {A : Type} (a : A) : M A := fun d => (Normal a, d, []).

Definition bind {A B : Type} (m : M A) (k : A -> M B) : M B :=
  fun d =>
    match m d with
    | (Normal a, d1, t1) =>
        match k a d1 with
        | (r, d2, t2) => (r, d2, t1 ++ t2)
        end
    | (Throw e, d1, t1) => (Throw e, d1, t1)
    end.

Definition throw {A : Type} (e : jsError) : M A := fun d => (Throw e, d, []).

Definition tryCatch {A : Type} (m : M A) (handler : jsError -> M A) : M A :=
  fun d =>
    match m d with
    | (Normal a, d1, t1) => (Normal a, d1, t1)
    | (Throw e, d1, t1) =>
        match handler e d1 with
        | (r, d2, t2) => (r, d2, t1 ++ t2)
        end
    end.

Definition get : M device := fun d => (Normal d, d, []).

Definition modify (f : device -> device) : M unit := fun d => (Normal tt, f d, []).

Definition emit (e : event) : M unit := fun d => (Normal tt, d, [e]).

Definition when (b : bool) (m : M unit) : M unit := if b then m else ret tt.

Declare Scope js_scope.
Delimit Scope js_scope with js.
Notation "x <- m ;; k" := (bind m (fun x => k))
  (at level 61, m at next level, right associativity) : js_scope.
Notation "m ;; k" := (bind m (fun _ => k))
  (at level 61, right associativity) : js_scope.
Local Open Scope js_scope.

(** What a run leaves behind. *)
Definition result {A : Type} (r : completion A * device * list event) : completion A :=
  fst (fst r).
Definition final {A : Type} (r : completion A * device * list event) : device :=
  snd (fst r).
Definition events {A : Type} (r : completion A * device * list event) : list event :=
  snd r.

(** ** The handler's methods *)

Section Handler.

(** [parseError] (utils/functions.js) and the text [platformLang.timeout]
    (utils/lang-en.js) are imported by the handler. *)
Variable parseError : jsError -> string.
Variable lang_timeout : string.

(** [err instanceof TimeoutError ? platformLang.timeout : parseError(err)] *)
Definition errorText (err : jsError) : string :=
  match err with
  | TimeoutError => lang_timeout
  | _ => parseError err
  end.

(** [Math.round(newPower / 10) / 100] *)
Definition scaledPower (newPower : Z) : Q :=
  Qred (inject_Z (Math_round (inject_Z newPower / 10)) / 100).

(** [Math.round(newVoltage * 10) / 100] *)
Definition scaledVoltage (newVoltage : Z) : Q :=
  Qred (inject_Z (Math_round (inject_Z newVoltage * 10)) / 100).

(** [applyUpdate(data)], lines 268-322. *)
Definition applyUpdate (data : fragment) : M unit :=
  match onoff data with
  | Some v =>
      let newState := v =? 1 in
      d <- get ;;
      if negb (Bool.eqb (cacheState d) newState) then
        emit (UpdateCharacteristic On (VBool newState)) ;;
        modify (set_cacheState newState) ;;
        d1 <- get ;;
        emit (AddEntry (entry_status (if cacheState d1 then 1 else 0))) ;;
        when (enableLogging d1) (emit (Log (currentState newState)))
      else ret tt
  | None => ret tt
  end ;;
  match power data with
  | Some newPower =>
      d <- get ;;
      newInUse <-
        (if strictNeZ (cachePower d) (Some newPower) then
           let scaled := scaledPower newPower in
           emit (UpdateCharacteristic CurrentConsumption (VNum scaled)) ;;
           modify (set_cachePower (Some newPower)) ;;
           when (enableDebugLogging d) (emit (Log (currentPower scaled))) ;;
           ret (Some (cacheState d && Qgtb scaled (inUsePowerThreshold d)))
         else ret (cacheInUse d)) ;;
      d1 <- get ;;
      if strictNeBool (cacheInUse d1) newInUse then
        modify (set_cacheInUse newInUse) ;;
        emit (UpdateCharacteristic OutletInUse (VBool (truthy newInUse))) ;;
        when (enableLogging d1) (emit (Log (currentInUse (truthy newInUse))))
      else ret tt
  | None => ret tt
  end ;;
  match voltage data with
  | Some newVoltage =>
      d <- get ;;
      if strictNeZ (cacheVoltage d) (Some newVoltage) then
        let scaled := scaledVoltage newVoltage in
        emit (UpdateCharacteristic Voltage (VNum scaled)) ;;
        modify (set_cacheVoltage (Some newVoltage)) ;;
        when (enableDebugLogging d) (emit (Log (currentVoltage scaled)))
      else ret tt
  | None => ret tt
  end.

(** [await this.platform.sendUpdate(this.accessory, cmd)] *)
Definition sendUpdate {A : Type} (cmd : command) (reply : outcome A) : M A :=
  emit (SendUpdate cmd) ;;
  match reply with
  | Resolved res => ret res
  | Rejected err => throw err
  end.

(** [await this.queue.add(task)].  When the task is over and nothing else
    is queued ([idle]), the queue's ['idle'] listener clears
    [updateInProgress].  A task the queue gives up after ten seconds is
    over as far as the queue goes: the reply its [await] gets in a run is
    then [Rejected TimeoutError], and the run ends where the caller's
    [catch] block ends.  What the abandoned task still does when its reply
    arrives is [commandTaskResumed], [powerTaskResumed] or
    [setupTaskResumed]. *)
Definition queue_add {A : Type} (idle : bool) (task : M A) : M A :=
  fun d =>
    match task d with
    | (r, d1, t) => (r, if idle then set_updateInProgress false d1 else d1, t)
    end.

(** The command [internalStateUpdate] builds, lines 110-127. *)
Definition toggleCommand (isToggleX : option bool) (value : bool) : command :=
  if truthy isToggleX then
    {| namespace := "Appliance.Control.ToggleX";
       cmd_payload := togglex_payload (if value then 1 else 0) 0 |}
  else
    {| namespace := "Appliance.Control.Toggle";
       cmd_payload := toggle_payload (if value then 1 else 0) |}.

(** The task [internalStateUpdate] queues, lines 100-143. *)
Definition commandTask (value : bool) (reply : outcome unit) : M unit :=
  d <- get ;;
  if Bool.eqb value (cacheState d) then ret tt
  else
    modify (set_updateInProgress true) ;;
    d1 <- get ;;
    sendUpdate (toggleCommand (isToggleX d1) value) reply ;;
    modify (set_cacheState value) ;;
    emit (AddEntry (entry_status (if value then 1 else 0))) ;;
    d2 <- get ;;
    when (enableLogging d2) (emit (Log (currentState value))).

(** The [catch] block of [internalStateUpdate], lines 144-152. *)
Definition commandFailed (err : jsError) : M unit :=
  let eText := errorText err in
  emit (Warn (sendFailed eText)) ;;
  emit (SetTimeout revertOn 2000) ;;
  throw (HapStatusError (-70402)).

(** [internalStateUpdate(value)], lines 97-153. *)
Definition internalStateUpdate (value : bool) (reply : outcome unit) (idle : bool)
  : M unit :=
  tryCatch (queue_add idle (commandTask value reply)) commandFailed.

(** What a timer does when it fires: the arrow function of lines 148-150
    reads [this.cacheState] then. *)
Definition fire (cb : callback) : M unit :=
  match cb with
  | revertOn =>
      d <- get ;;
      emit (UpdateCharacteristic On (VBool (cacheState d)))
  end.

(** The task [requestUpdate] queues, lines 164-230. *)
Definition pollTask (firstRun : bool) (reply : outcome (option pollPayload))
  : M unit :=
  modify (set_updateInProgress true) ;;
  res <- sendUpdate {| namespace := "Appliance.System.All";
                       cmd_payload := empty_payload |} reply ;;
  d <- get ;;
  when (enableDebugLogging d) (emit (Log incPoll)) ;;
  data <- match res with
          | Some data => ret data
          | None => throw (TypeError "all")
          end ;;
  match all data with
  | None => ret tt
  | Some a =>
      match digest a with
      | Some dg =>
          match firstOf (togglex dg) with
          | Some frag =>
              modify (set_isToggleX (Some true)) ;;
              applyUpdate frag
          | None =>
              match toggle dg with
              | Some frag =>
                  modify (set_isToggleX (Some false)) ;;
                  applyUpdate frag
              | None => ret tt
              end
          end
      | None => ret tt
      end ;;
      needsUpdate <-
        match system a with
        | Some sys =>
            match (if firstRun then sys_hardware sys else None) with
            | Some hw =>
                mac <- match hw_macAddress hw with
                       | Some mac => ret (toUpperCase mac)
                       | None => throw (TypeError "toUpperCase")
                       end ;;
                modify (set_accessory (set_macAddress (Some mac))) ;;
                modify (set_accessory (set_hardware (hw_version hw)))
            | None => ret tt
            end ;;
            match sys_firmware sys with
            | Some fw =>
                d1 <- get ;;
                changed <-
                  (if strictNeString (ipAddress (accessory d1)) (fw_innerIp fw) then
                     modify (set_accessory (set_ipAddress (fw_innerIp fw))) ;;
                     ret true
                   else ret false) ;;
                when firstRun
                  (modify (set_accessory (set_firmware (fw_version fw)))) ;;
                ret changed
            | None => ret false
            end
        | None => ret false
        end ;;
      sys <- match system a with
             | Some sys => ret sys
             | None => throw (TypeError "online")
             end ;;
      needsUpdate' <-
        match sys_online sys with
        | Some o =>
            let online := status o =? 1 in
            d1 <- get ;;
            if strictNeBool (isOnline (accessory d1)) (Some online) then
              modify (set_accessory (set_isOnline (Some online))) ;;
              ret true
            else ret needsUpdate
        | None => ret needsUpdate
        end ;;
      when (needsUpdate' || firstRun) (emit UpdateAccessory)
  end.

(** The connectivity signatures of line 241. *)
Definition connectivityFailure (eText : string) : bool :=
  existsb (fun el => includes eText el) ["EHOSTUNREACH"; "timed out"].

(** The [catch] block of [requestUpdate], lines 232-246. *)
Definition pollFailed (firstRun : bool) (err : jsError) : M unit :=
  let eText := errorText err in
  d <- get ;;
  when (enableDebugLogging d) (emit (Warn (reqFailed eText))) ;;
  if (truthy (isOnline (accessory d)) || firstRun) && connectivityFailure eText then
    modify (set_accessory (set_isOnline (Some false))) ;;
    emit UpdateAccessory
  else ret tt.

(** [requestUpdate(firstRun)], lines 155-247. *)
Definition requestUpdate (firstRun : bool) (reply : outcome (option pollPayload))
    (idle : bool) : M unit :=
  tryCatch
    (d <- get ;;
     if updateInProgress d then ret tt
     else queue_add idle (pollTask firstRun reply))
    (pollFailed firstRun).

(** [receiveUpdate(params)], lines 249-266. *)
Definition receiveUpdate (params : pushParams) : M unit :=
  tryCatch
    (d <- get ;;
     when (enableDebugLogging d) (emit (Log incMQTT)) ;;
     match params_payload params with
     | Some p =>
         match firstOf (push_togglex p) with
         | Some frag => applyUpdate frag
         | None =>
             match push_toggle p with
             | Some frag => applyUpdate frag
             | None => ret tt
             end
         end
     | None => ret tt
     end)
    (fun err => emit (Warn (refFailed (parseError err)))).

(** [requestPowerReadings()], lines 366-398. *)
Definition requestPowerReadings (reply : outcome (option powerPayload)) (idle : bool)
  : M unit :=
  tryCatch
    (queue_add idle
       (modify (set_updateInProgress true) ;;
        res <- sendUpdate {| namespace := "Appliance.Control.Electricity";
                             cmd_payload := empty_payload |} reply ;;
        d <- get ;;
        when (enableDebugLogging d) (emit (Log incPoll)) ;;
        match res with
        | Some data =>
            match electricity data with
            | Some frag => applyUpdate frag
            | None => ret tt
            end
        | None => ret tt
        end))
    (fun err =>
       d <- get ;;
       when (enableDebugLogging d) (emit (Warn (powerFailed (errorText err)))) ;;
       emit (AddEntry (entry_power 0))).

End Handler.

Arguments scaledPower : simpl never.
Arguments scaledVoltage : simpl never.
Arguments Qgtb : simpl never.

(** ** Reading a trace *)

Definition characteristic_eqb (a b : characteristic) : bool :=
  match a, b with
  | On, On | OutletInUse, OutletInUse
  | CurrentConsumption, CurrentConsumption | Voltage, Voltage => true
  | _, _ => false
  end.

(** The values written to characteristic [c], in order. *)
Fixpoint notifications (c : characteristic) (t : list event) : list value :=
  match t with
  | [] => []
  | UpdateCharacteristic c' v :: rest =>
      if characteristic_eqb c c' then v :: notifications c rest
      else notifications c rest
  | _ :: rest => notifications c rest
  end.

(** The requests handed to the transport, in order. *)
Fixpoint sent (t : list event) : list command :=
  match t with
  | [] => []
  | SendUpdate c :: rest => c :: sent rest
  | _ :: rest => sent rest
  end.

(** The history entries added, in order. *)
Fixpoint history (t : list event) : list historyEntry :=
  match t with
  | [] => []
  | AddEntry e :: rest => e :: history rest
  | _ :: rest => history rest
  end.

(** The timers started, in order. *)
Fixpoint timers (t : list event) : list (callback * Z) :=
  match t with
  | [] => []
  | SetTimeout cb ms :: rest => (cb, ms) :: timers rest
  | _ :: rest => timers rest
  end.

(** How many times [platform.updateAccessory] was called. *)
Fixpoint accessoryUpdates (t : list event) : nat :=
  match t with
  | [] => O
  | UpdateAccessory :: rest => S (accessoryUpdates rest)
  | _ :: rest => accessoryUpdates rest
  end.

(** A run writes [v] to characteristic [c] once, unless the incoming value
    was the cached one, and then it does not write to [c] at all. *)
Definition notifies_unless {A : Type} (c : characteristic)
    (r : completion A * device * list event) (unchanged : Prop) (v : value) : Prop :=
  (unchanged -> notifications c (events r) = [])
  /\ (~ unchanged -> notifications c (events r) = [v]).

(** ** Sequences of calls *)

(** [applyUpdate] called on each fragment in turn. *)
Fixpoint applyUpdates (frags : list fragment) : M unit :=
  match frags with
  | [] => ret tt
  | data :: rest => applyUpdate data ;; applyUpdates rest
  end.

(** The value a sequence of writes leaves in a field, read off the
    fragments alone: the last one that carries the field decides, and the
    field keeps its initial value when none does. *)
Fixpoint spec_lastWritten {A : Type} (field : fragment -> option A)
    (frags : list fragment) (init : A) : A :=
  match frags with
  | [] => init
  | data :: rest =>
      spec_lastWritten field rest
        (match field data with Some v => v | None => init end)
  end.

(** What the digest of a full-state poll yields, lines 181-189: the variant
    it decides and the fragment handed to [applyUpdate]. *)
Definition digestFragment (a : allInfo) : option (bool * fragment) :=
  match digest a with
  | Some dg =>
      match firstOf (togglex dg) with
      | Some frag => Some (true, frag)
      | None =>
          match toggle dg with
          | Some frag => Some (false, frag)
          | None => None
          end
      end
  | None => None
  end.

Definition pollDigest (res : option pollPayload) : option (bool * fragment) :=
  match res with
  | Some data =>
      match all data with
      | Some a => digestFragment a
      | None => None
      end
  | None => None
  end.

(** The two tests that make a poll ask for an accessory update, lines 205
    and 220, on the accessory context the poll starts from. *)
Definition ipChanged (a : allInfo) (d : device) : bool :=
  match system a with
  | Some sys =>
      match sys_firmware sys with
      | Some fw => strictNeString (ipAddress (accessory d)) (fw_innerIp fw)
      | None => false
      end
  | None => false
  end.

Definition onlineChanged (a : allInfo) (d : device) : bool :=
  match system a with
  | Some sys =>
      match sys_online sys with
      | Some o => strictNeBool (isOnline (accessory d)) (Some (status o =? 1))
      | None => false
      end
  | None => false
  end.

(** The request of a full-state poll, lines 168-171. *)
Definition pollCommand : command :=
  {| namespace := "Appliance.System.All"; cmd_payload := empty_payload |}.

(** The entry points of the handler, with what the environment answers. *)
Inductive call :=
| call_internalStateUpdate (value : bool) (reply : outcome unit) (idle : bool)
| call_requestUpdate (firstRun : bool) (reply : outcome (option pollPayload))
    (idle : bool)
| call_receiveUpdate (params : pushParams)
| call_requestPowerReadings (reply : outcome (option powerPayload)) (idle : bool)
| call_fire (cb : callback).

Section Calls.

Variable parseError : jsError -> string.
Variable lang_timeout : string.

Definition perform (c : call) : M unit :=
  match c with
  | call_internalStateUpdate value reply idle =>
      internalStateUpdate parseError lang_timeout value reply idle
  | call_requestUpdate firstRun reply idle =>
      requestUpdate parseError lang_timeout firstRun reply idle
  | call_receiveUpdate params => receiveUpdate parseError params
  | call_requestPowerReadings reply idle =>
      requestPowerReadings parseError lang_timeout reply idle
  | call_fire cb => fire cb
  end.

(** The handler after a sequence of calls; an error thrown to one caller
    does not stop the next call. *)
Fixpoint performAll (cs : list call) (d : device) : device :=
  match cs with
  | [] => d
  | c :: rest => performAll rest (final (perform c d))
  end.

End Calls.

(** ** Sample states and inputs *)

Definition fresh_context : context :=
  {| macAddress := None; hardware := None; ipAddress := None;
     firmware := None; isOnline := Some true |}.

(** A switch that is on, with the in-use threshold at 5 W and no reading
    cached yet. *)
Definition switch_on : device :=
  {| enableLogging := true; enableDebugLogging := true; inUsePowerThreshold := 5;
     cacheState := true; cacheInUse := Some false; cachePower := None;
     cacheVoltage := None; isToggleX := None; updateInProgress := false;
     accessory := fresh_context |}.

(** A switch that is off and has never been polled. *)
Definition switch_off : device := set_cacheState false switch_on.

(** A switch that is on, drawing 12.001 W at 230 V, in use. *)
Definition switch_in_use : device :=
  set_cacheInUse (Some true)
    (set_cachePower (Some 12001) (set_cacheVoltage (Some 2300) switch_on)).

(** [{ power: 12000, voltage: 2300 }] *)
Definition reading_12000_2300 : fragment :=
  {| onoff := None; power := Some 12000; voltage := Some 2300 |}.

(** [{ power: 12002 }] *)
Definition reading_12002 : fragment :=
  {| onoff := None; power := Some 12002; voltage := None |}.

(** [{ onoff: 0 }], [{ onoff: 1 }] and [{ onoff: 0, power: 12001 }] *)
Definition reported_off : fragment :=
  {| onoff := Some 0; power := None; voltage := None |}.

Definition reported_on : fragment :=
  {| onoff := Some 1; power := None; voltage := None |}.

Definition reported_off_same_power : fragment :=
  {| onoff := Some 0; power := Some 12001; voltage := None |}.

(** A full-state response of a ToggleX device that is on, and of a Toggle
    device that is off. *)
Definition system_online : systemInfo :=
  {| sys_hardware := None; sys_firmware := None;
     sys_online := Some {| status := 1 |} |}.

Definition poll_togglex_on : pollPayload :=
  {| all := Some {| digest := Some {| togglex := Some [reported_on];
                                      toggle := None |};
                    system := Some system_online |} |}.

Definition poll_toggle_off : pollPayload :=
  {| all := Some {| digest := Some {| togglex := None;
                                      toggle := Some reported_off |};
                    system := Some system_online |} |}.

(** A full-state response with a digest and no [system]. *)
Definition poll_without_system : pollPayload :=
  {| all := Some {| digest := Some {| togglex := Some [reported_on];
                                      toggle := None |};
                    system := None |} |}.

(** An error-text extraction that returns the message of an error, and the
    message V8 gives a read of a property of [undefined]. *)
Definition message_of (err : jsError) : string :=
  match err with
  | TimeoutError => "Promise timed out"
  | TypeError property =>
      String.append "Cannot read properties of undefined (reading '"
        (String.append property "')")
  | Error message => message
  | HapStatusError _ => "HapStatusError"
  end.

(** The first poll of a switch that is off, answered by a ToggleX device
    that is on, and a later poll answered in the Toggle shape. *)
Definition first_poll : completion unit * device * list event :=
  requestUpdate message_of "request timed out" true
    (Resolved (Some poll_togglex_on)) true switch_off.

Definition later_poll : completion unit * device * list event :=
  requestUpdate message_of "request timed out" false
    (Resolved (Some poll_toggle_off)) true (final first_poll).

(** A later poll of a switch that is off, answered without [system]. *)
Definition poll_run_without_system : completion unit * device * list event :=
  requestUpdate message_of "request timed out" false
    (Resolved (Some poll_without_system)) true switch_off.

(** Two polls in a row that the queue times out. *)
Definition timed_out_poll : completion unit * device * list event :=
  requestUpdate message_of "request timed out" false
    (Rejected TimeoutError) true switch_on.

Definition timed_out_again : completion unit * device * list event :=
  requestUpdate message_of "request timed out" false
    (Rejected TimeoutError) true (final timed_out_poll).

(** A poll the transport rejects because the host cannot be reached, and
    one it rejects with an error whose text has neither 'EHOSTUNREACH' nor
    'timed out'. *)
Definition unreachable_poll : completion unit * device * list event :=
  requestUpdate message_of "request timed out" false
    (Rejected (Error "connect EHOSTUNREACH 192.168.1.20:80")) true switch_on.

Definition reset_poll : completion unit * device * list event :=
  requestUpdate message_of "request timed out" false
    (Rejected (Error "read ECONNRESET")) true switch_on.

(** Switching on before any poll has run; the transport answers, or the
    queue times out. *)
Definition early_command : completion unit * device * list event :=
  internalStateUpdate message_of "request timed out" true (Resolved tt) true
    switch_off.

Definition timed_out_command : completion unit * device * list event :=
  internalStateUpdate message_of "request timed out" true
    (Rejected TimeoutError) true switch_off.

(** The user repeats the command that timed out, and the transport accepts
    it. *)
Definition repeated_command : completion unit * device * list event :=
  internalStateUpdate message_of "request timed out" true (Resolved tt) true
    (final timed_out_command).

(** Switching off a switch the first poll has found on and Extended. *)
Definition later_command : completion unit * device * list event :=
  internalStateUpdate message_of "request timed out" false (Resolved tt) true
    (final first_poll).

(** ** Fragments and requests of the other entry points *)

(** The fragment a push message hands to [applyUpdate], lines 255-261. *)
Definition pushFragment (params : pushParams) : option fragment :=
  match params_payload params with
  | Some p =>
      match firstOf (push_togglex p) with
      | Some frag => Some frag
      | None => push_toggle p
      end
  | None => None
  end.

(** The fragment a power poll hands to [applyUpdate], lines 384-387. *)
Definition powerFragment (res : option powerPayload) : option fragment :=
  match res with
  | Some data => electricity data
  | None => None
  end.

(** The request of a power poll, lines 373-376. *)
Definition electricityCommand : command :=
  {| namespace := "Appliance.Control.Electricity"; cmd_payload := empty_payload |}.

(** ** Replies that arrive after the queue's timeout *)

(** The command task from its [await] on, lines 135-142: what the task of
    [internalStateUpdate(value)] does when the transport accepts the request
    only after the queue has given the task up.  The task is no longer in
    the queue, so no 'idle' follows from it. *)
Definition commandTaskResumed (value : bool) : M unit :=
  modify (set_cacheState value) ;;
  emit (AddEntry (entry_status (if value then 1 else 0))) ;;
  d2 <- get ;;
  when (enableLogging d2) (emit (Log (currentState value))).

(** The power poll's task from its [await] on, lines 378-387, on the late
    answer [res]. *)
Definition powerTaskResumed (res : option powerPayload) : M unit :=
  d <- get ;;
  when (enableDebugLogging d) (emit (Log incPoll)) ;;
  match res with
  | Some data =>
      match electricity data with
      | Some frag => applyUpdate frag
      | None => ret tt
      end
  | None => ret tt
  end.

(** ** Start-up *)

(** The HomeKit service as the handler uses it: the characteristics it has,
    and the value its OutletInUse characteristic holds. *)
Record service := {
  characteristics : list characteristic;
  outletInUse : option bool
}.

(** The options the constructor reads: [accessory.context] and
    [platform.config]. *)
Record options := {
  opt_inUsePowerThreshold : option Q;
  opt_connection : string;
  opt_enableLogging : bool;
  opt_enableDebugLogging : bool;
  opt_cloudRefreshRate : option Q;
  opt_refreshRate : option Q
}.

(** [platformConsts.defaultValues] (utils/constants.js). *)
Record defaultValues := {
  default_inUsePowerThreshold : Q;
  default_cloudRefreshRate : Q;
  default_refreshRate : Q
}.

(** What [setInterval] repeats. *)
Inductive repeated := every_requestUpdate | every_requestPowerReadings.

(** The calls made while starting up, beside those of [event]. *)
Inductive startupEvent :=
| Collaborator (e : event)
| RemoveService (name : string)
| AddService (name : string)
| AddCharacteristic (c : characteristic)
| CreateEveService
| MqttConnect
| CallRequestUpdate (firstRun : bool)     (* not awaited *)
| CallSetupPowerReadings                  (* not awaited *)
| CallRequestPowerReadings                (* not awaited *)
| SetInterval (f : repeated) (ms : Q)
| LogDisabled (eText : string)
| LogOptions (connection : string) (threshold : Q) (logging : string).

(** [service.testCharacteristic(c)] *)
Definition testCharacteristic (c : characteristic) (s : service) : bool :=
  existsb (characteristic_eqb c) (characteristics s).

(** [accessory.getService(name)], as a test, and [accessory.removeService]
    of the service it returns: the first one of that name. *)
Definition getService (name : string) (services : list string) : bool :=
  existsb (String.eqb name) services.

Fixpoint removeService (name : string) (services : list string) : list string :=
  match services with
  | [] => []
  | s :: rest => if String.eqb name s then rest else s :: removeService name rest
  end.

(** [a || b] on a number-or-undefined [a]: 0 and [undefined] are falsy. *)
Definition orDefault (a : option Q) (b : Q) : Q :=
  match a with
  | Some q => if Qeq_bool q 0 then b else q
  | None => b
  end.

(** [hasProperty(config, key) ? config[key] : b] *)
Definition propertyOr (a : option Q) (b : Q) : Q :=
  match a with
  | Some q => q
  | None => b
  end.

(** Whether the first power request shows power readings: it is answered,
    and the answer has [payload.electricity] (line 336). *)
Definition powerSupported (reply : outcome (option powerPayload)) : bool :=
  match reply with
  | Resolved res =>
      match powerFragment res with Some _ => true | None => false end
  | Rejected _ => false
  end.

(** The characteristics added, the intervals started and the number of
    immediate power polls in a start-up trace. *)
Fixpoint added (t : list startupEvent) : list characteristic :=
  match t with
  | [] => []
  | AddCharacteristic c :: rest => c :: added rest
  | _ :: rest => added rest
  end.

Fixpoint intervals (t : list startupEvent) : list (repeated * Q) :=
  match t with
  | [] => []
  | SetInterval f ms :: rest => (f, ms) :: intervals rest
  | _ :: rest => intervals rest
  end.

Fixpoint powerPollCalls (t : list startupEvent) : nat :=
  match t with
  | [] => O
  | CallRequestPowerReadings :: rest => S (powerPollCalls rest)
  | _ :: rest => powerPollCalls rest
  end.

Fixpoint requests (t : list startupEvent) : list command :=
  match t with
  | [] => []
  | Collaborator (SendUpdate c) :: rest => c :: requests rest
  | _ :: rest => requests rest
  end.

Section Startup.

(** [parseError(err, hideStack)], the text [platformLang.timeout], the
    defaults of utils/constants.js, and the value a characteristic that was
    just added holds. *)
Variable parseErrorHiding : jsError -> list string -> string.
Variable lang_timeout : string.
Variable defaults : defaultValues.
Variable freshOutletInUse : option bool.

(** [service.addCharacteristic(c)] *)
Definition addCharacteristic (c : characteristic) (s : service) : service :=
  {| characteristics := characteristics s ++ [c];
     outletInUse := match c with
                    | OutletInUse => freshOutletInUse
                    | _ => outletInUse s
                    end |}.

(** [if (!service.testCharacteristic(c)) service.addCharacteristic(c)],
    lines 341-343, 345-347 and 348-350. *)
Definition ensureCharacteristic (c : characteristic) (s : service)
  : service * list startupEvent :=
  if testCharacteristic c s then (s, [])
  else (addCharacteristic c s, [AddCharacteristic c]).

(** The [catch] block of [setupPowerReadings], lines 356-363. *)
Definition setupFailed (err : jsError) (d : device) : list startupEvent :=
  if enableDebugLogging d then
    [LogDisabled (match err with
                  | TimeoutError => lang_timeout
                  | _ => parseErrorHiding err ["no data on initial run"]
                  end)]
  else [].

(** [setupPowerReadings()], lines 324-364.  It never throws.  On the
    supported path the call of [requestPowerReadings] puts a task in the
    queue before this one is over, so the queue does not go idle after it
    and [updateInProgress] stays set. *)
Definition setupPowerReadings (reply : outcome (option powerPayload)) (idle : bool)
    (s : service) (d : device) : device * service * list startupEvent :=
  let d1 := set_updateInProgress true d in
  let request := Collaborator (SendUpdate electricityCommand) in
  match reply with
  | Rejected err =>
      (if idle then set_updateInProgress false d1 else d1, s,
       request :: setupFailed err d1)
  | Resolved res =>
      match powerFragment res with
      | None =>
          (if idle then set_updateInProgress false d1 else d1, s,
           request :: setupFailed (Error "no data on initial run") d1)
      | Some _ =>
          let (s1, e1) := ensureCharacteristic OutletInUse s in
          let d2 := set_cacheInUse (outletInUse s1) d1 in
          let (s2, e2) := ensureCharacteristic CurrentConsumption s1 in
          let (s3, e3) := ensureCharacteristic Voltage s2 in
          (d2, s3,
           request :: e1 ++ e2 ++ e3
             ++ [CallRequestPowerReadings; SetInterval every_requestPowerReadings 60000])
      end
  end.

(** The set-up task from its [await] on, lines 335-354, on the late answer
    [res] to a request the queue has given up.  The [throw] of line 337
    then reaches no [catch] block of the handler: [setupPowerReadings] is
    over already. *)
Definition setupTaskResumed (res : option powerPayload) (s : service) (d : device)
  : device * service * list startupEvent :=
  match powerFragment res with
  | None => (d, s, [])
  | Some _ =>
      let (s1, e1) := ensureCharacteristic OutletInUse s in
      let d2 := set_cacheInUse (outletInUse s1) d in
      let (s2, e2) := ensureCharacteristic CurrentConsumption s1 in
      let (s3, e3) := ensureCharacteristic Voltage s2 in
      (d2, s3,
       e1 ++ e2 ++ e3
         ++ [CallRequestPowerReadings; SetInterval every_requestPowerReadings 60000])
  end.

(** The services of the accessory after lines 36-44. *)
Definition cleanServices (services : list string) : list string * list startupEvent :=
  let step (acc : list string * list startupEvent) (name : string) :=
    if getService name (fst acc)
    then (removeService name (fst acc), snd acc ++ [RemoveService name])
    else acc in
  let (removed, e) := fold_left step ["Outlet"; "HeaterCooler"; "AirPurifier"]
                        (services, []) in
  if getService "Switch" removed then (removed, e)
  else (removed ++ ["Switch"], e ++ [AddService "Switch"]).

(** The constructor, lines 9-95: the handler's state when it returns, the
    accessory's services, and the calls made.  Line 58 clears
    [updateInProgress]; the call [requestUpdate(true)] of line 77 then runs
    as far as its first [await] before the constructor goes on, which is
    inside the queued task, after line 165 has set the flag: the handler
    starts with [updateInProgress] set and its first poll under way. *)
Definition construct (o : options) (services : list string) (onValue : bool)
    (ctx : context) : device * list string * list startupEvent :=
  let threshold := orDefault (opt_inUsePowerThreshold o)
                     (default_inUsePowerThreshold defaults) in
  let cloudRefreshRate := propertyOr (opt_cloudRefreshRate o)
                            (default_cloudRefreshRate defaults) in
  let localRefreshRate := propertyOr (opt_refreshRate o)
                            (default_refreshRate defaults) in
  let pollInterval := if String.eqb (opt_connection o) "local"
                      then localRefreshRate else cloudRefreshRate in
  let (services', e) := cleanServices services in
  let normalLogging := if opt_enableLogging o then "standard" else "disable" in
  ({| enableLogging := opt_enableLogging o;
      enableDebugLogging := opt_enableDebugLogging o;
      inUsePowerThreshold := threshold;
      cacheState := onValue;
      cacheInUse := None; cachePower := None; cacheVoltage := None;
      isToggleX := None;
      updateInProgress := true;
      accessory := ctx |},
   services',
   e ++ [CreateEveService]
     ++ (if String.eqb (opt_connection o) "local" then [] else [MqttConnect])
     ++ [CallRequestUpdate true;
         SetInterval every_requestUpdate (pollInterval * 1000)%Q;
         CallSetupPowerReadings;
         LogOptions (opt_connection o) threshold
           (if opt_enableDebugLogging o then "debug" else normalLogging)]).

End Startup.

(** ** More sample inputs *)

Definition sample_hardware : hardwareInfo :=
  {| hw_macAddress := Some "48:e1:e9:0a:bc:de"; hw_version := Some "6.0.0" |}.

Definition hardware_without_mac : hardwareInfo :=
  {| hw_macAddress := None; hw_version := Some "6.0.0" |}.

Definition sample_firmware : firmwareInfo :=
  {| fw_innerIp := Some "192.168.1.20"; fw_version := Some "6.1.8" |}.

(** A service with the On characteristic only, and one that already has
    OutletInUse, holding [true]. *)
Definition switch_service : service :=
  {| characteristics := [On]; outletInUse := None |}.

Definition outlet_service : service :=
  {| characteristics := [On; OutletInUse]; outletInUse := Some true |}.

(** Answers to the first power request: with readings, and without. *)
Definition power_reply : outcome (option powerPayload) :=
  Resolved (Some {| electricity := Some reading_12000_2300 |}).

Definition no_power_reply : outcome (option powerPayload) :=
  Resolved (Some {| electricity := None |}).

Definition hidden_message_of (err : jsError) (hideStack : list string) : string :=
  message_of err.

(** The reply to [timed_out_command] arrives after all. *)
Definition late_reply : completion unit * device * list event :=
  commandTaskResumed true (final timed_out_command).

(** A power poll the queue gives up, and its answer, with readings, that
    arrives afterwards. *)
Definition timed_out_power_poll : completion unit * device * list event :=
  requestPowerReadings message_of "request timed out" (Rejected TimeoutError) true
    switch_on.

Definition late_power_reply : completion unit * device * list event :=
  powerTaskResumed (Some {| electricity := Some reading_12000_2300 |})
    (final timed_out_power_poll).

(** A set-up whose request the queue gives up, and the answer, with
    readings, that arrives afterwards. *)
Definition timed_out_setup : device * service * list startupEvent :=
  setupPowerReadings hidden_message_of "request timed out" (Some false)
    (Rejected TimeoutError) true switch_service switch_off.

Definition late_setup : device * service * list startupEvent :=
  setupTaskResumed (Some false) (Some {| electricity := Some reading_12000_2300 |})
    (snd (fst timed_out_setup)) (fst (fst timed_out_setup)).

(** ** Properties of the JavaScript operations *)

Lemma strictNeZ_false (a b : option Z) : strictNeZ a b = false <-> a = b.
Proof.
  destruct a, b; simpl; split; intro H; try discriminate; try reflexivity.
  - apply negb_false_iff, Z.eqb_eq in H. now subst.
  - inversion H. now rewrite Z.eqb_refl.
Qed.

Lemma strictNeZ_true (a b : option Z) : strictNeZ a b = true <-> a <> b.
Proof.
  rewrite <- strictNeZ_false. destruct (strictNeZ a b); split; congruence.
Qed.

Lemma strictNeBool_false (a b : option bool) : strictNeBool a b = false <-> a = b.
Proof.
  destruct a as [[]|], b as [[]|]; simpl; split; intro H;
    try discriminate; reflexivity.
Qed.

Lemma strictNeBool_true (a b : option bool) : strictNeBool a b = true <-> a <> b.
Proof.
  rewrite <- strictNeBool_false. destruct (strictNeBool a b); split; congruence.
Qed.

Lemma eqb_false_ne (a b : bool) : negb (Bool.eqb a b) = false <-> a = b.
Proof.
  rewrite negb_false_iff. split; [apply eqb_prop | intros ->; apply eqb_reflx].
Qed.

Lemma Math_round_tenth (p : Z) : Math_round (inject_Z p / 10) = (p + 5) / 10.
Proof.
  unfold Math_round, Qfloor, Qdiv, Qmult, Qplus, Qinv, inject_Z. simpl.
  transitivity (2 * (p + 5) / (2 * 10)).
  - f_equal; lia.
  - apply Z.div_mul_cancel_l; lia.
Qed.

Lemma Math_round_integer (n : Z) : Math_round (inject_Z n) = n.
Proof.
  unfold Math_round, Qfloor, Qplus, inject_Z. simpl.
  transitivity ((1 + n * 2) / 2).
  - f_equal; lia.
  - rewrite Z.div_add by lia. reflexivity.
Qed.

(** [Math.round(p / 10) / 100] is [p / 1000] to two decimals: a whole number
    of hundredths, at most half a hundredth away. *)
Lemma scaledPower_hundredths (p : Z) :
  (scaledPower p == inject_Z ((p + 5) / 10) / 100)%Q.
Proof.
  unfold scaledPower. rewrite Qred_correct, Math_round_tenth. reflexivity.
Qed.

Lemma scaledPower_nearest (p : Z) :
  (Qabs (scaledPower p - inject_Z p / 1000) <= 1 # 200)%Q.
Proof.
  rewrite scaledPower_hundredths.
  pose proof (Z.div_mod (p + 5) 10 ltac:(lia)) as E.
  pose proof (Z.mod_pos_bound (p + 5) 10 ltac:(lia)) as B.
  set (n := (p + 5) / 10) in *.
  apply Qabs_Qle_condition. unfold Qle, Qminus, Qplus, Qopp, Qdiv, Qmult, Qinv, inject_Z.
  simpl. lia.
Qed.

(** [Math.round(u * 10) / 100] on an integer [u] is [u / 10]. *)
Lemma scaledVoltage_tenths (u : Z) : (scaledVoltage u == inject_Z u / 10)%Q.
Proof.
  unfold scaledVoltage. rewrite Qred_correct.
  change (inject_Z u * 10)%Q with (inject_Z u * inject_Z 10)%Q.
  rewrite <- inject_Z_mult, Math_round_integer.
  unfold Qeq, Qdiv, Qmult, Qinv, inject_Z. simpl. lia.
Qed.

(** [includes] is the substring test. *)

Lemma prefix_append (needle hay : string) :
  String.prefix needle hay = true <-> exists post, hay = String.append needle post.
Proof.
  revert hay. induction needle as [|c needle IH]; intro hay.
  - destruct hay; simpl; (split; [intros _; eexists; reflexivity | reflexivity]).
  - destruct hay as [|h hay]; simpl.
    + split; [discriminate | intros [post E]; discriminate].
    + destruct (ascii_dec c h) as [->|N].
      * rewrite IH. split; intros [post E]; exists post.
        -- now rewrite E.
        -- now inversion E.
      * split; [discriminate | intros [post E]; inversion E; congruence].
Qed.

Lemma includes_nil (needle : string) :
  includes "" needle = String.prefix needle "".
Proof. simpl. apply orb_false_r. Qed.

Lemma includes_cons (h : ascii) (hay needle : string) :
  includes (String h hay) needle
  = (String.prefix needle (String h hay) || includes hay needle)%bool.
Proof. reflexivity. Qed.

Lemma includes_substring (hay needle : string) :
  includes hay needle = true
  <-> exists pre post, hay = String.append pre (String.append needle post).
Proof.
  induction hay as [|h hay IH].
  - rewrite includes_nil, prefix_append. split.
    + intros [post E]. now exists "", post.
    + intros (pre & post & E). destruct pre; [now exists post | discriminate].
  - rewrite includes_cons, orb_true_iff, prefix_append, IH. split.
    + intros [[post E] | (pre & post & E)].
      * now exists "", post.
      * exists (String h pre), post. simpl. now rewrite E.
    + intros (pre & post & E). destruct pre as [|c pre]; simpl in E.
      * left. now exists post.
      * right. inversion E. now exists pre, post.
Qed.

Lemma truthy_Some_true (o : option bool) : truthy o = true <-> o = Some true.
Proof. destruct o as [[]|]; simpl; split; intro H; congruence. Qed.

(** ** [applyUpdate] *)

Ltac js_unfold :=
  unfold applyUpdate, sendUpdate, queue_add, tryCatch, bind, ret, get, modify,
    emit, when, throw, result, final, events in *.

Ltac js_case :=
  match goal with
  | |- context [if ?c then _ else _] => destruct c eqn:?
  end.

Ltac js_cases := js_unfold; simpl; repeat (js_case; simpl).

Ltac by_cases_on data := destruct data as [[?|] [?|] [?|]]; js_cases.

(** Turn the tests a branch was taken under into equations. *)
Ltac js_tests :=
  repeat match goal with
  | H : strictNeBool _ _ = false |- _ => apply (proj1 (strictNeBool_false _ _)) in H
  | H : strictNeBool _ _ = true |- _ => apply (proj1 (strictNeBool_true _ _)) in H
  | H : strictNeZ _ _ = false |- _ => apply (proj1 (strictNeZ_false _ _)) in H
  | H : strictNeZ _ _ = true |- _ => apply (proj1 (strictNeZ_true _ _)) in H
  | H : negb (Bool.eqb _ _) = false |- _ => apply (proj1 (eqb_false_ne _ _)) in H
  end.

Ltac js_done := first [reflexivity | assumption | symmetry; assumption | congruence].

Lemma applyUpdate_returns (data : fragment) (d : device) :
  result (applyUpdate data d) = Normal tt.
Proof. by_cases_on data; reflexivity. Qed.

Lemma applyUpdate_run (data : fragment) (d : device) :
  applyUpdate data d =
  (Normal tt, final (applyUpdate data d), events (applyUpdate data d)).
Proof.
  pose proof (applyUpdate_returns data d) as H. unfold result, final, events in *.
  destruct (applyUpdate data d) as [[r d'] t]. simpl in *. now subst.
Qed.

Lemma applyUpdate_cacheState (data : fragment) (d : device) :
  cacheState (final (applyUpdate data d)) =
  match onoff data with Some v => v =? 1 | None => cacheState d end.
Proof. by_cases_on data; js_tests; congruence. Qed.

Lemma applyUpdate_cachePower (data : fragment) (d : device) :
  cachePower (final (applyUpdate data d)) =
  match power data with Some p => Some p | None => cachePower d end.
Proof. by_cases_on data; js_tests; congruence. Qed.

Lemma applyUpdate_cacheVoltage (data : fragment) (d : device) :
  cacheVoltage (final (applyUpdate data d)) =
  match voltage data with Some u => Some u | None => cacheVoltage d end.
Proof. by_cases_on data; js_tests; congruence. Qed.

Lemma applyUpdate_cacheInUse (data : fragment) (d : device) :
  cacheInUse (final (applyUpdate data d)) =
  match power data with
  | Some p =>
      if strictNeZ (cachePower d) (Some p) then
        Some (cacheState (final (applyUpdate data d))
              && Qgtb (scaledPower p) (inUsePowerThreshold d))
      else cacheInUse d
  | None => cacheInUse d
  end.
Proof. by_cases_on data; js_tests; congruence. Qed.

(** The fields [applyUpdate] never writes. *)
Lemma applyUpdate_frame (data : fragment) (d : device) :
  isToggleX (final (applyUpdate data d)) = isToggleX d
  /\ updateInProgress (final (applyUpdate data d)) = updateInProgress d
  /\ accessory (final (applyUpdate data d)) = accessory d
  /\ enableLogging (final (applyUpdate data d)) = enableLogging d
  /\ enableDebugLogging (final (applyUpdate data d)) = enableDebugLogging d
  /\ inUsePowerThreshold (final (applyUpdate data d)) = inUsePowerThreshold d.
Proof. by_cases_on data; repeat split; js_done. Qed.

(** It talks to the HomeKit service, the history and the log only. *)
Lemma applyUpdate_quiet (data : fragment) (d : device) :
  sent (events (applyUpdate data d)) = []
  /\ accessoryUpdates (events (applyUpdate data d)) = O
  /\ timers (events (applyUpdate data d)) = [].
Proof. by_cases_on data; repeat split; js_done. Qed.

Lemma applyUpdate_notifies_On (data : fragment) (d : device) :
  notifications On (events (applyUpdate data d)) =
  match onoff data with
  | Some v => if negb (Bool.eqb (cacheState d) (v =? 1)) then [VBool (v =? 1)] else []
  | None => []
  end.
Proof. by_cases_on data; reflexivity. Qed.

Lemma applyUpdate_notifies_CurrentConsumption (data : fragment) (d : device) :
  notifications CurrentConsumption (events (applyUpdate data d)) =
  match power data with
  | Some p => if strictNeZ (cachePower d) (Some p) then [VNum (scaledPower p)] else []
  | None => []
  end.
Proof. by_cases_on data; reflexivity. Qed.

Lemma applyUpdate_notifies_Voltage (data : fragment) (d : device) :
  notifications Voltage (events (applyUpdate data d)) =
  match voltage data with
  | Some u => if strictNeZ (cacheVoltage d) (Some u) then [VNum (scaledVoltage u)] else []
  | None => []
  end.
Proof. by_cases_on data; reflexivity. Qed.

Lemma applyUpdate_notifies_OutletInUse (data : fragment) (d : device) :
  notifications OutletInUse (events (applyUpdate data d)) =
  if strictNeBool (cacheInUse d) (cacheInUse (final (applyUpdate data d)))
  then [VBool (truthy (cacheInUse (final (applyUpdate data d))))]
  else [].
Proof. by_cases_on data; js_tests; js_done. Qed.

Lemma applyUpdates_cons (data : fragment) (rest : list fragment) (d : device) :
  final (applyUpdates (data :: rest) d) =
  final (applyUpdates rest (final (applyUpdate data d))).
Proof.
  simpl. unfold bind at 1. rewrite applyUpdate_run.
  unfold final at 1 3. simpl.
  destruct (applyUpdates rest _) as [[r d'] t]. reflexivity.
Qed.

Lemma applyUpdates_cacheState (frags : list fragment) (d : device) :
  cacheState (final (applyUpdates frags d)) =
  spec_lastWritten (fun data => option_map (fun v => v =? 1) (onoff data))
    frags (cacheState d).
Proof.
  revert d. induction frags as [|data rest IH]; intro d.
  - reflexivity.
  - rewrite applyUpdates_cons, IH, applyUpdate_cacheState. simpl.
    destruct (onoff data); reflexivity.
Qed.

Lemma applyUpdates_cachePower (frags : list fragment) (d : device) :
  cachePower (final (applyUpdates frags d)) =
  spec_lastWritten (fun data => option_map Some (power data)) frags (cachePower d).
Proof.
  revert d. induction frags as [|data rest IH]; intro d.
  - reflexivity.
  - rewrite applyUpdates_cons, IH, applyUpdate_cachePower. simpl.
    destruct (power data); reflexivity.
Qed.

Lemma applyUpdates_cacheVoltage (frags : list fragment) (d : device) :
  cacheVoltage (final (applyUpdates frags d)) =
  spec_lastWritten (fun data => option_map Some (voltage data)) frags (cacheVoltage d).
Proof.
  revert d. induction frags as [|data rest IH]; intro d.
  - reflexivity.
  - rewrite applyUpdates_cons, IH, applyUpdate_cacheVoltage. simpl.
    destruct (voltage data); reflexivity.
Qed.

Lemma notifies_On (data : fragment) (d : device) (v : Z) :
  onoff data = Some v ->
  notifies_unless On (applyUpdate data d) (cacheState d = (v =? 1)) (VBool (v =? 1)).
Proof.
  intro E. unfold notifies_unless. rewrite applyUpdate_notifies_On, E.
  destruct (negb (Bool.eqb (cacheState d) (v =? 1))) eqn:T; split; intro H;
    try reflexivity.
  - rewrite H, eqb_reflx in T. discriminate.
  - apply (proj1 (eqb_false_ne _ _)) in T. contradiction.
Qed.

Lemma notifies_CurrentConsumption (data : fragment) (d : device) (p : Z) :
  power data = Some p ->
  notifies_unless CurrentConsumption (applyUpdate data d)
    (cachePower d = Some p) (VNum (scaledPower p)).
Proof.
  intro E. unfold notifies_unless.
  rewrite applyUpdate_notifies_CurrentConsumption, E.
  destruct (strictNeZ (cachePower d) (Some p)) eqn:T; js_tests; split; intro H;
    try reflexivity; contradiction.
Qed.

Lemma notifies_Voltage (data : fragment) (d : device) (u : Z) :
  voltage data = Some u ->
  notifies_unless Voltage (applyUpdate data d)
    (cacheVoltage d = Some u) (VNum (scaledVoltage u)).
Proof.
  intro E. unfold notifies_unless. rewrite applyUpdate_notifies_Voltage, E.
  destruct (strictNeZ (cacheVoltage d) (Some u)) eqn:T; js_tests; split; intro H;
    try reflexivity; contradiction.
Qed.

Lemma notifies_OutletInUse (data : fragment) (d : device) :
  notifies_unless OutletInUse (applyUpdate data d)
    (cacheInUse (final (applyUpdate data d)) = cacheInUse d)
    (VBool (truthy (cacheInUse (final (applyUpdate data d))))).
Proof.
  unfold notifies_unless. rewrite applyUpdate_notifies_OutletInUse.
  destruct (strictNeBool (cacheInUse d) (cacheInUse (final (applyUpdate data d))))
    eqn:T; js_tests; split; intro H; try reflexivity; congruence.
Qed.

(** A fragment without a field never writes to that field's characteristic. *)
Lemma absent_field_silent (data : fragment) (d : device) :
  (onoff data = None -> notifications On (events (applyUpdate data d)) = [])
  /\ (power data = None ->
      notifications CurrentConsumption (events (applyUpdate data d)) = []
      /\ notifications OutletInUse (events (applyUpdate data d)) = []
      /\ cacheInUse (final (applyUpdate data d)) = cacheInUse d)
  /\ (voltage data = None -> notifications Voltage (events (applyUpdate data d)) = []).
Proof.
  pose proof (applyUpdate_cacheInUse data d) as U.
  split; [|split]; intro E.
  - rewrite applyUpdate_notifies_On, E. reflexivity.
  - rewrite E in U.
    rewrite applyUpdate_notifies_CurrentConsumption, applyUpdate_notifies_OutletInUse.
    rewrite E, U, (proj2 (strictNeBool_false _ _) eq_refl). auto.
  - rewrite applyUpdate_notifies_Voltage, E. reflexivity.
Qed.

(** C5.  After any sequence of [applyUpdate] calls the on/off, power and
    voltage fields of the cache hold the value of the last fragment that
    carried the field (their initial value when none did).  In each call, a
    field whose incoming value differs from the cached one is written to
    HomeKit exactly once, a field whose incoming value equals the cached one
    is not written at all, and neither is a field the fragment lacks; the
    derived in-use field follows the same rule. *)
Theorem applyUpdate_last_written_one_notification_per_change :
  forall (frags : list fragment) (d : device) (data : fragment) (d0 : device),
    (cacheState (final (applyUpdates frags d))
       = spec_lastWritten (fun f => option_map (fun v => v =? 1) (onoff f))
           frags (cacheState d)
     /\ cachePower (final (applyUpdates frags d))
       = spec_lastWritten (fun f => option_map Some (power f)) frags (cachePower d)
     /\ cacheVoltage (final (applyUpdates frags d))
       = spec_lastWritten (fun f => option_map Some (voltage f)) frags (cacheVoltage d))
    /\ (forall v, onoff data = Some v ->
          notifies_unless On (applyUpdate data d0)
            (cacheState d0 = (v =? 1)) (VBool (v =? 1)))
    /\ (forall p, power data = Some p ->
          notifies_unless CurrentConsumption (applyUpdate data d0)
            (cachePower d0 = Some p) (VNum (scaledPower p)))
    /\ (forall u, voltage data = Some u ->
          notifies_unless Voltage (applyUpdate data d0)
            (cacheVoltage d0 = Some u) (VNum (scaledVoltage u)))
    /\ notifies_unless OutletInUse (applyUpdate data d0)
         (cacheInUse (final (applyUpdate data d0)) = cacheInUse d0)
         (VBool (truthy (cacheInUse (final (applyUpdate data d0)))))
    /\ (onoff data = None -> notifications On (events (applyUpdate data d0)) = [])
    /\ (power data = None ->
          notifications CurrentConsumption (events (applyUpdate data d0)) = []
          /\ notifications OutletInUse (events (applyUpdate data d0)) = []
          /\ cacheInUse (final (applyUpdate data d0)) = cacheInUse d0)
    /\ (voltage data = None ->
          notifications Voltage (events (applyUpdate data d0)) = []).
Proof.
  intros frags d data d0.
  split.
  { repeat split.
    - apply applyUpdates_cacheState.
    - apply applyUpdates_cachePower.
    - apply applyUpdates_cacheVoltage. }
  split. { intros v E. now apply notifies_On. }
  split. { intros p E. now apply notifies_CurrentConsumption. }
  split. { intros u E. now apply notifies_Voltage. }
  split. { apply notifies_OutletInUse. }
  apply absent_field_silent.
Qed.

(** C10.  [applyUpdate] changes the cached in-use value, and writes to
    OutletInUse, only when the fragment has a power reading that differs
    from the cached one.  A fragment without a power reading leaves in-use
    alone: a switch cached as on and in use that is reported off stays in
    use, also when the report repeats the cached power reading. *)
Theorem inUse_changes_only_with_a_new_power_reading :
  forall (data : fragment) (d : device),
    ((cacheInUse (final (applyUpdate data d)) <> cacheInUse d
      \/ notifications OutletInUse (events (applyUpdate data d)) <> [])
     -> exists p, power data = Some p /\ cachePower d <> Some p)
    /\ (power data = None ->
        cacheInUse (final (applyUpdate data d)) = cacheInUse d
        /\ notifications OutletInUse (events (applyUpdate data d)) = [])
    /\ (cacheState switch_in_use = true
        /\ cacheInUse switch_in_use = Some true
        /\ cacheState (final (applyUpdate reported_off switch_in_use)) = false
        /\ cacheInUse (final (applyUpdate reported_off switch_in_use)) = Some true
        /\ cacheState (final (applyUpdate reported_off_same_power switch_in_use)) = false
        /\ cacheInUse (final (applyUpdate reported_off_same_power switch_in_use))
           = Some true).
Proof.
  intros data d.
  pose proof (applyUpdate_cacheInUse data d) as U.
  pose proof (notifies_OutletInUse data d) as [Same _].
  split; [|split].
  - intro H.
    assert (C : cacheInUse (final (applyUpdate data d)) <> cacheInUse d).
    { destruct H as [H|H]; [exact H|]. intro E. apply H, Same, E. }
    destruct (power data) as [p|]; [|contradiction].
    exists p. split; [reflexivity|].
    destruct (strictNeZ (cachePower d) (Some p)) eqn:T; [|contradiction].
    now apply strictNeZ_true.
  - intro E. rewrite E in U. split; [exact U | apply Same, U].
  - repeat split.
Qed.

(** C1 (as the code has it).  For the fragment [{power: 12000, voltage: 2300}]
    with the threshold at 5 W, the switch cached as on and other readings
    cached: the power written to the consumption characteristic is 12 W,
    which is greater than 5, so the cached in-use value becomes true; the
    voltage written is 230 V; the cache keeps the raw readings. *)
Theorem reading_12000_2300_is_12W_230V_in_use :
  forall d : device,
    (inUsePowerThreshold d == 5)%Q ->
    cacheState d = true ->
    cachePower d <> Some 12000 ->
    cacheVoltage d <> Some 2300 ->
    notifications CurrentConsumption (events (applyUpdate reading_12000_2300 d))
      = [VNum 12]
    /\ Qgtb 12 (inUsePowerThreshold d) = true
    /\ cacheInUse (final (applyUpdate reading_12000_2300 d)) = Some true
    /\ notifications Voltage (events (applyUpdate reading_12000_2300 d))
      = [VNum 230]
    /\ cachePower (final (applyUpdate reading_12000_2300 d)) = Some 12000
    /\ cacheVoltage (final (applyUpdate reading_12000_2300 d)) = Some 2300.
Proof.
  intros d Thr Hon Hp Hv.
  assert (G : Qgtb 12 (inUsePowerThreshold d) = true).
  { unfold Qgtb. apply negb_true_iff.
    destruct (Qle_bool 12 (inUsePowerThreshold d)) eqn:L; [|reflexivity].
    apply Qle_bool_iff in L. rewrite Thr in L. now compute in L. }
  pose proof (applyUpdate_cacheInUse reading_12000_2300 d) as U.
  pose proof (applyUpdate_cacheState reading_12000_2300 d) as S.
  simpl in U, S.
  apply strictNeZ_true in Hp. apply strictNeZ_true in Hv.
  rewrite applyUpdate_notifies_CurrentConsumption, applyUpdate_notifies_Voltage,
    applyUpdate_cachePower, applyUpdate_cacheVoltage.
  simpl. rewrite Hp, Hv. rewrite Hp, S, Hon in U.
  change (scaledPower 12000) with (12%Q) in *.
  change (scaledVoltage 2300) with (230%Q).
  rewrite G in U. repeat split; try reflexivity; assumption.
Qed.

Lemma reading_12000_2300_is_12W_230V_in_use_witness :
  notifications CurrentConsumption (events (applyUpdate reading_12000_2300 switch_on))
    = [VNum 12]
  /\ Qgtb 12 (inUsePowerThreshold switch_on) = true
  /\ cacheInUse (final (applyUpdate reading_12000_2300 switch_on)) = Some true
  /\ notifications Voltage (events (applyUpdate reading_12000_2300 switch_on))
    = [VNum 230]
  /\ cachePower (final (applyUpdate reading_12000_2300 switch_on)) = Some 12000
  /\ cacheVoltage (final (applyUpdate reading_12000_2300 switch_on)) = Some 2300.
Proof.
  apply (reading_12000_2300_is_12W_230V_in_use switch_on);
    [reflexivity | reflexivity | discriminate | discriminate].
Defined.

(** C1 as stated fails on [switch_on] (on, threshold 5, nothing cached): no
    value equal to 1.20 is written to the consumption characteristic, the
    cached in-use value does not become false, and no value equal to 23 is
    written to the voltage characteristic. *)
Lemma reading_12000_2300_is_not_1_20W_23V :
  ~ (exists q, (q == 6 # 5)%Q
       /\ In (UpdateCharacteristic CurrentConsumption (VNum q))
            (events (applyUpdate reading_12000_2300 switch_on)))
  /\ cacheInUse (final (applyUpdate reading_12000_2300 switch_on)) <> Some false
  /\ ~ (exists q, (q == 23)%Q
       /\ In (UpdateCharacteristic Voltage (VNum q))
            (events (applyUpdate reading_12000_2300 switch_on))).
Proof.
  assert (E : events (applyUpdate reading_12000_2300 switch_on) =
              [UpdateCharacteristic CurrentConsumption (VNum 12);
               Log (currentPower 12);
               UpdateCharacteristic OutletInUse (VBool true);
               Log (currentInUse true);
               UpdateCharacteristic Voltage (VNum 230);
               Log (currentVoltage 230)]) by reflexivity.
  rewrite E. repeat split.
  - intros (q & Hq & Hin). simpl in Hin.
    repeat (destruct Hin as [Hin|Hin]; [try discriminate; inversion Hin; subst|]);
      try contradiction. now compute in Hq.
  - discriminate.
  - intros (q & Hq & Hin). simpl in Hin.
    repeat (destruct Hin as [Hin|Hin]; [try discriminate; inversion Hin; subst|]);
      try contradiction. now compute in Hq.
Qed.

(** C2 (as the code has it).  [applyUpdate] compares the raw reading with
    the cache and stores the raw reading in the cache; only the value
    written to HomeKit is scaled.  For power that value is raw/1000 rounded
    to two decimals; for voltage it is raw/10. *)
Theorem applyUpdate_compares_and_caches_raw_readings :
  forall (data : fragment) (d : device),
    (forall p, power data = Some p ->
       cachePower (final (applyUpdate data d)) = Some p
       /\ notifies_unless CurrentConsumption (applyUpdate data d)
            (cachePower d = Some p) (VNum (scaledPower p))
       /\ (scaledPower p == inject_Z ((p + 5) / 10) / 100)%Q
       /\ (Qabs (scaledPower p - inject_Z p / 1000) <= 1 # 200)%Q)
    /\ (forall u, voltage data = Some u ->
       cacheVoltage (final (applyUpdate data d)) = Some u
       /\ notifies_unless Voltage (applyUpdate data d)
            (cacheVoltage d = Some u) (VNum (scaledVoltage u))
       /\ (scaledVoltage u == inject_Z u / 10)%Q).
Proof.
  intros data d. split.
  - intros p E. repeat split.
    + rewrite applyUpdate_cachePower, E. reflexivity.
    + now apply notifies_CurrentConsumption.
    + now apply notifies_CurrentConsumption.
    + apply scaledPower_hundredths.
    + apply scaledPower_nearest.
  - intros u E. repeat split.
    + rewrite applyUpdate_cacheVoltage, E. reflexivity.
    + now apply notifies_Voltage.
    + now apply notifies_Voltage.
    + apply scaledVoltage_tenths.
Qed.

(** C2 as stated fails.  With 12001 cached, the reading 12002 scales to the
    same 12.00 W, yet it is written to HomeKit again: the comparison is on
    the raw values.  The cache then holds 12002, not 12.00; likewise it
    holds the voltage 2300, not its scaled value, and that scaled value is
    230, not 2300/100. *)
Lemma cache_holds_raw_not_scaled_readings :
  cachePower switch_in_use = Some 12001
  /\ scaledPower 12001 = scaledPower 12002
  /\ notifications CurrentConsumption (events (applyUpdate reading_12002 switch_in_use))
     = [VNum 12]
  /\ cachePower (final (applyUpdate reading_12002 switch_in_use)) = Some 12002
  /\ ~ (inject_Z 12002 == scaledPower 12002)%Q
  /\ cacheVoltage (final (applyUpdate reading_12000_2300 switch_on)) = Some 2300
  /\ ~ (inject_Z 2300 == scaledVoltage 2300)%Q
  /\ ~ (scaledVoltage 2300 == inject_Z 2300 / 100)%Q.
Proof.
  repeat split; try reflexivity; intro H; now compute in H.
Qed.

(** ** Traces of composed runs *)

Lemma sent_app (a b : list event) : sent (a ++ b) = sent a ++ sent b.
Proof.
  induction a as [|e a IH]; [reflexivity|].
  destruct e; simpl; rewrite IH; reflexivity.
Qed.

Lemma timers_app (a b : list event) : timers (a ++ b) = timers a ++ timers b.
Proof.
  induction a as [|e a IH]; [reflexivity|].
  destruct e; simpl; rewrite IH; reflexivity.
Qed.

Lemma history_app (a b : list event) : history (a ++ b) = history a ++ history b.
Proof.
  induction a as [|e a IH]; [reflexivity|].
  destruct e; simpl; rewrite IH; reflexivity.
Qed.

Lemma accessoryUpdates_app (a b : list event) :
  accessoryUpdates (a ++ b) = (accessoryUpdates a + accessoryUpdates b)%nat.
Proof.
  induction a as [|e a IH]; [reflexivity|].
  destruct e; simpl; rewrite IH; reflexivity.
Qed.

Lemma notifications_app (c : characteristic) (a b : list event) :
  notifications c (a ++ b) = notifications c a ++ notifications c b.
Proof.
  induction a as [|e a IH]; [reflexivity|].
  destruct e; simpl; rewrite ?IH; try reflexivity.
  destruct (characteristic_eqb c c0); simpl; rewrite ?IH; reflexivity.
Qed.

Create Rewrite HintDb trace.
#[global] Hint Rewrite sent_app timers_app history_app accessoryUpdates_app
  notifications_app app_nil_r : trace.

(** ** The full-state poll *)

Ltac run_unfold :=
  unfold requestUpdate, pollTask, pollFailed, internalStateUpdate, commandTask,
    commandFailed, receiveUpdate, requestPowerReadings, fire, sendUpdate,
    queue_add, tryCatch, bind, ret, get, modify, emit, when, throw in *.

(** Replace a call of [applyUpdate] by its final state and trace, keeping
    what is known of them. *)
Ltac run_applyUpdate :=
  match goal with
  | |- context [applyUpdate ?f ?s] =>
      let d' := fresh "d'" in
      let t' := fresh "t'" in
      let Ed := fresh "Ed" in
      let Et := fresh "Et" in
      pose proof (applyUpdate_frame f s);
      pose proof (applyUpdate_quiet f s);
      pose proof (applyUpdate_cacheState f s);
      rewrite (applyUpdate_run f s);
      remember (final (applyUpdate f s)) as d' eqn:Ed in *;
      remember (events (applyUpdate f s)) as t' eqn:Et in *;
      clear Ed Et
  end.

Ltac destruct_digest dg :=
  let tx := fresh "tx" in
  let tg := fresh "tg" in
  destruct dg as [[tx tg]|]; [destruct tx as [[|? ?]|]; destruct tg as [?|] | ].

Ltac destruct_system sys :=
  let hw := fresh "hw" in
  let fw := fresh "fw" in
  let on := fresh "on" in
  destruct sys as [[hw fw on]|];
  [destruct hw as [[[?|] ?]|]; destruct fw as [[? ?]|]; destruct on as [[?]|] | ].

Ltac destruct_reply reply :=
  let res := fresh "res" in
  let dg := fresh "dg" in
  let sys := fresh "sys" in
  destruct reply as [res|?];
  [destruct res as [[[[dg sys]|]]|]; [destruct_digest dg; destruct_system sys | | ] | ].

Ltac run_poll := simpl; repeat (first [run_applyUpdate | js_case]; simpl).

Ltac run_done :=
  repeat split; intros; unfold result, final, events in *;
  autorewrite with trace; simpl in *;
  try discriminate;
  repeat match goal with H : _ /\ _ |- _ => destruct H end;
  try match goal with
      | H : Resolved _ = Resolved _ |- _ => inversion H; subst; simpl in *
      end;
  try discriminate;
  repeat match goal with
         | H : sent _ = _ |- _ => rewrite H
         | H : timers _ = _ |- _ => rewrite H
         | H : accessoryUpdates _ = _ |- _ => rewrite H
         end;
  js_done.

(** What the queued poll task does, whatever the reply. *)
Lemma pollTask_spec (firstRun : bool) (reply : outcome (option pollPayload))
    (d : device) :
  isToggleX (final (pollTask firstRun reply d)) =
    match reply with
    | Resolved res =>
        match pollDigest res with
        | Some (b, _) => Some b
        | None => isToggleX d
        end
    | Rejected _ => isToggleX d
    end
  /\ cacheState (final (pollTask firstRun reply d)) =
    match reply with
    | Resolved res =>
        match pollDigest res with
        | Some (_, frag) =>
            match onoff frag with Some v => v =? 1 | None => cacheState d end
        | None => cacheState d
        end
    | Rejected _ => cacheState d
    end
  /\ updateInProgress (final (pollTask firstRun reply d)) = true
  /\ enableDebugLogging (final (pollTask firstRun reply d)) = enableDebugLogging d
  /\ sent (events (pollTask firstRun reply d)) = [pollCommand]
  /\ timers (events (pollTask firstRun reply d)) = []
  /\ (forall err, result (pollTask firstRun reply d) = Throw err ->
      accessory (final (pollTask firstRun reply d)) = accessory d
      /\ accessoryUpdates (events (pollTask firstRun reply d)) = O)
  /\ (forall a, reply = Resolved (Some {| all := Some a |}) -> system a = None ->
      result (pollTask firstRun reply d) = Throw (TypeError "online")).
Proof.
  unfold pollDigest, digestFragment, firstOf, pollCommand.
  run_unfold.
  destruct_reply reply; destruct firstRun; run_poll; run_done.
Qed.

Ltac run_changes :=
  intros; unfold result, final, events in *;
  autorewrite with trace; simpl in *;
  try discriminate;
  repeat match goal with H : _ /\ _ |- _ => destruct H end;
  repeat match goal with
         | H : accessory ?x = accessory _ |- _ => is_var x; rewrite H in *; clear H
         end;
  repeat match goal with
         | H : strictNeString ?a ?b = _, H2 : context [strictNeString ?a ?b] |- _ =>
             rewrite H in H2
         | H : strictNeBool ?a ?b = _, H2 : context [strictNeBool ?a ?b] |- _ =>
             rewrite H in H2
         end;
  simpl in *; try discriminate;
  repeat match goal with
         | H : accessoryUpdates _ = _ |- _ => rewrite H
         end;
  js_done.

(** X4.  A full-state poll whose response has [all] and is handled without
    an error calls [updateAccessory] once on the first run whatever the
    response holds, and on a later run once when the IP address or the
    online status differs from the accessory context and not at all when
    neither does. *)
Theorem first_poll_always_updates_accessory_later_polls_on_change :
  forall (firstRun : bool) (a : allInfo) (d : device),
    result (pollTask firstRun (Resolved (Some {| all := Some a |})) d) = Normal tt ->
    accessoryUpdates (events (pollTask firstRun (Resolved (Some {| all := Some a |})) d))
    = if firstRun || ipChanged a d || onlineChanged a d then 1%nat else O.
Proof.
  intros firstRun a d. unfold ipChanged, onlineChanged.
  run_unfold. unfold firstOf.
  destruct a as [dg sys]. destruct_digest dg; destruct_system sys;
    destruct firstRun; run_poll; run_changes.
Qed.

(** ** Commands and polls *)

Section Requests.

Variable parseError : jsError -> string.
Variable lang_timeout : string.

(** [requestUpdate] in terms of its queued task and its [catch] block. *)
Lemma requestUpdate_run (firstRun : bool) (reply : outcome (option pollPayload))
    (idle : bool) (d : device) :
  updateInProgress d = false ->
  requestUpdate parseError lang_timeout firstRun reply idle d =
  match pollTask firstRun reply d with
  | (Normal a, d1, t1) =>
      (Normal a, if idle then set_updateInProgress false d1 else d1, t1)
  | (Throw e, d1, t1) =>
      match pollFailed parseError lang_timeout firstRun e
              (if idle then set_updateInProgress false d1 else d1) with
      | (r, d2, t2) => (r, d2, t1 ++ t2)
      end
  end.
Proof.
  intro P. unfold requestUpdate, tryCatch, queue_add, bind, get.
  rewrite P. destruct (pollTask firstRun reply d) as [[[a|e] d1] t1]; reflexivity.
Qed.

Lemma requestUpdate_skipped (firstRun : bool) (reply : outcome (option pollPayload))
    (idle : bool) (d : device) :
  updateInProgress d = true ->
  requestUpdate parseError lang_timeout firstRun reply idle d = (Normal tt, d, []).
Proof.
  intro P. unfold requestUpdate, tryCatch, queue_add, bind, get.
  rewrite P. reflexivity.
Qed.

(** The [catch] block of [requestUpdate]. *)
Lemma pollFailed_run (firstRun : bool) (err : jsError) (d : device) :
  pollFailed parseError lang_timeout firstRun err d =
  (Normal tt,
   (if (truthy (isOnline (accessory d)) || firstRun)
       && connectivityFailure (errorText parseError lang_timeout err)
    then set_accessory (set_isOnline (Some false)) d else d),
   (if enableDebugLogging d then [Warn (reqFailed (errorText parseError lang_timeout err))] else [])
   ++ (if (truthy (isOnline (accessory d)) || firstRun)
          && connectivityFailure (errorText parseError lang_timeout err)
       then [UpdateAccessory] else [])).
Proof.
  unfold pollFailed, bind, get, when, emit, modify, ret.
  destruct (enableDebugLogging d);
    destruct ((truthy (isOnline (accessory d)) || firstRun)
              && connectivityFailure (errorText parseError lang_timeout err)); reflexivity.
Qed.

Lemma warn_no_accessoryUpdates (b : bool) (m : logMessage) :
  accessoryUpdates (if b then [Warn m] else []) = O.
Proof. destruct b; reflexivity. Qed.

(** A failed poll: the state and trace of [requestUpdate]. *)
Lemma requestUpdate_failed (firstRun : bool) (reply : outcome (option pollPayload))
    (idle : bool) (d : device) (err : jsError) :
  updateInProgress d = false ->
  result (pollTask firstRun reply d) = Throw err ->
  accessory (final (requestUpdate parseError lang_timeout firstRun reply idle d)) =
    (if (truthy (isOnline (accessory d)) || firstRun)
        && connectivityFailure (errorText parseError lang_timeout err)
     then set_isOnline (Some false) (accessory d) else accessory d)
  /\ accessoryUpdates (events (requestUpdate parseError lang_timeout firstRun reply idle d)) =
    (if (truthy (isOnline (accessory d)) || firstRun)
        && connectivityFailure (errorText parseError lang_timeout err)
     then 1%nat else O)
  /\ result (requestUpdate parseError lang_timeout firstRun reply idle d) = Normal tt.
Proof.
  intros P R.
  destruct (pollTask_spec firstRun reply d) as (_ & _ & _ & _ & _ & _ & T & _).
  destruct (T err R) as [A U].
  rewrite (requestUpdate_run firstRun reply idle d P).
  unfold result, final, events in *.
  destruct (pollTask firstRun reply d) as [[r d1] t1]. simpl in *. subst r.
  rewrite pollFailed_run.
  assert (A' : accessory (if idle then set_updateInProgress false d1 else d1)
               = accessory d) by (destruct idle; exact A).
  rewrite A'. simpl. autorewrite with trace.
  rewrite U, warn_no_accessoryUpdates.
  destruct ((truthy (isOnline (accessory d)) || firstRun)
            && connectivityFailure (errorText parseError lang_timeout err)); simpl;
    repeat split; try reflexivity; try exact A'.
  rewrite <- A'. reflexivity.
Qed.



(** C6.  A failed full-state poll marks the device offline, with one
    accessory update, exactly when the error text (the timeout text of the
    language file for a [TimeoutError], [parseError(err)] for any other
    error) has 'EHOSTUNREACH' or 'timed out' as a substring and the device
    was online or this is the first run; otherwise the accessory context is
    left as it was.  Once the device is offline, a later poll that fails,
    for whatever reason, issues no further accessory update. *)
Theorem failed_poll_marks_offline_iff_connectivity_failure :
  forall (d : device) (firstRun : bool) (reply : outcome (option pollPayload))
         (idle : bool) (err : jsError) (eText : string),
    updateInProgress d = false ->
    result (pollTask firstRun reply d) = Throw err ->
    eText = match err with
            | TimeoutError => lang_timeout
            | _ => parseError err
            end ->
    ((isOnline (accessory (final (requestUpdate parseError lang_timeout firstRun
                                    reply idle d))) = Some false
      /\ accessoryUpdates (events (requestUpdate parseError lang_timeout firstRun
                                     reply idle d)) = 1%nat)
     <-> (((exists pre post : string,
              eText = (pre ++ "EHOSTUNREACH" ++ post)%string)
           \/ (exists pre post : string,
                 eText = (pre ++ "timed out" ++ post)%string))
          /\ (isOnline (accessory d) = Some true \/ firstRun = true)))
    /\ (accessoryUpdates (events (requestUpdate parseError lang_timeout firstRun
                                    reply idle d)) = O
        -> accessory (final (requestUpdate parseError lang_timeout firstRun
                               reply idle d)) = accessory d)
    /\ (forall (d1 : device) (reply2 : outcome (option pollPayload)) (idle2 : bool)
               (err2 : jsError),
          d1 = final (requestUpdate parseError lang_timeout firstRun reply idle d) ->
          isOnline (accessory d1) = Some false ->
          result (pollTask false reply2 d1) = Throw err2 ->
          accessoryUpdates (events (requestUpdate parseError lang_timeout false
                                      reply2 idle2 d1)) = O
          /\ accessory (final (requestUpdate parseError lang_timeout false
                                 reply2 idle2 d1)) = accessory d1).
Proof.
  intros d firstRun reply idle err eText P R T.
  destruct (requestUpdate_failed firstRun reply idle d err P R) as (A & U & _).
  change (match err with
          | TimeoutError => lang_timeout
          | _ => parseError err
          end) with (errorText parseError lang_timeout err) in T.
  rewrite <- T in A, U. clear T.
  set (r := requestUpdate parseError lang_timeout firstRun reply idle d) in *.
  set (c := (truthy (isOnline (accessory d)) || firstRun)
            && connectivityFailure eText) in *.
  assert (C : c = true <->
              ((exists pre post : string,
                  eText = (pre ++ "EHOSTUNREACH" ++ post)%string)
               \/ (exists pre post : string,
                     eText = (pre ++ "timed out" ++ post)%string))
              /\ (isOnline (accessory d) = Some true \/ firstRun = true)).
  { unfold c, connectivityFailure, existsb.
    rewrite andb_true_iff, orb_false_r, !orb_true_iff, !includes_substring,
      truthy_Some_true.
    tauto. }
  split; [|split].
  - rewrite <- C. rewrite A, U. destruct c; simpl; split; intro H.
    + reflexivity.
    + split; reflexivity.
    + destruct H as [_ H]. discriminate.
    + discriminate.
  - rewrite A, U. destruct c; [discriminate | reflexivity].
  - intros d1 reply2 idle2 err2 _ Off R2.
    destruct (updateInProgress d1) eqn:P2.
    + rewrite (requestUpdate_skipped false reply2 idle2 d1 P2). split; reflexivity.
    + destruct (requestUpdate_failed false reply2 idle2 d1 err2 P2 R2)
        as (A2 & U2 & _).
      rewrite Off in A2, U2. simpl in A2, U2. split; assumption.
Qed.

Lemma internalStateUpdate_same (value : bool) (reply : outcome unit) (idle : bool)
    (d : device) :
  value = cacheState d ->
  internalStateUpdate parseError lang_timeout value reply idle d =
  (Normal tt, if idle then set_updateInProgress false d else d, []).
Proof.
  intros ->. run_unfold. rewrite eqb_reflx. reflexivity.
Qed.

Lemma commandTask_throws (value : bool) (reply : outcome unit) (d : device)
    (err : jsError) :
  result (commandTask value reply d) = Throw err ->
  value <> cacheState d /\ reply = Rejected err.
Proof.
  run_unfold. unfold result.
  destruct (Bool.eqb value (cacheState d)) eqn:E; simpl; [discriminate|].
  destruct reply as [[]|e]; simpl.
  - destruct (enableLogging d); discriminate.
  - intro H. inversion H. split; [|reflexivity].
    intros ->. rewrite eqb_reflx in E. discriminate.
Qed.

Lemma internalStateUpdate_rejected (value : bool) (err : jsError) (idle : bool)
    (d : device) :
  value <> cacheState d ->
  internalStateUpdate parseError lang_timeout value (Rejected err) idle d =
  (Throw (HapStatusError (-70402)),
   (if idle then set_updateInProgress false (set_updateInProgress true d)
    else set_updateInProgress true d),
   [SendUpdate (toggleCommand (isToggleX d) value);
    Warn (sendFailed (errorText parseError lang_timeout err));
    SetTimeout revertOn 2000]).
Proof.
  intro N. run_unfold.
  destruct (Bool.eqb value (cacheState d)) eqn:E.
  - apply eqb_prop in E. contradiction.
  - simpl. destruct idle; reflexivity.
Qed.

Lemma internalStateUpdate_resolved (value : bool) (idle : bool) (d : device) :
  value <> cacheState d ->
  internalStateUpdate parseError lang_timeout value (Resolved tt) idle d =
  (Normal tt,
   (if idle
    then set_updateInProgress false (set_cacheState value (set_updateInProgress true d))
    else set_cacheState value (set_updateInProgress true d)),
   [SendUpdate (toggleCommand (isToggleX d) value);
    AddEntry (entry_status (if value then 1 else 0))]
   ++ (if enableLogging d then [Log (currentState value)] else [])).
Proof.
  intro N. run_unfold.
  destruct (Bool.eqb value (cacheState d)) eqn:E.
  - apply eqb_prop in E. contradiction.
  - simpl. destruct idle, (enableLogging d); reflexivity.
Qed.

(** C8.  A call [internalStateUpdate(v)] with [v] equal to the cached on/off
    state sends nothing to the transport, leaves every cache field (and the
    variant and the accessory context) as it was, and calls no collaborator
    at all: no notification, no history entry, no log, no timer. *)
Theorem command_for_the_cached_state_does_nothing :
  forall (d : device) (value : bool) (reply : outcome unit) (idle : bool),
    value = cacheState d ->
    result (internalStateUpdate parseError lang_timeout value reply idle d) = Normal tt
    /\ events (internalStateUpdate parseError lang_timeout value reply idle d) = []
    /\ sent (events (internalStateUpdate parseError lang_timeout value reply idle d)) = []
    /\ history (events (internalStateUpdate parseError lang_timeout value reply idle d)) = []
    /\ cacheState (final (internalStateUpdate parseError lang_timeout value reply idle d))
       = cacheState d
    /\ cacheInUse (final (internalStateUpdate parseError lang_timeout value reply idle d))
       = cacheInUse d
    /\ cachePower (final (internalStateUpdate parseError lang_timeout value reply idle d))
       = cachePower d
    /\ cacheVoltage (final (internalStateUpdate parseError lang_timeout value reply idle d))
       = cacheVoltage d
    /\ isToggleX (final (internalStateUpdate parseError lang_timeout value reply idle d))
       = isToggleX d
    /\ accessory (final (internalStateUpdate parseError lang_timeout value reply idle d))
       = accessory d.
Proof.
  intros d value reply idle E.
  rewrite (internalStateUpdate_same value reply idle d E).
  destruct idle; repeat split.
Qed.

Lemma commandTaskResumed_run (value : bool) (d : device) :
  commandTaskResumed value d =
  (Normal tt, set_cacheState value d,
   AddEntry (entry_status (if value then 1 else 0))
     :: (if enableLogging d then [Log (currentState value)] else [])).
Proof.
  unfold commandTaskResumed. run_unfold. simpl.
  destruct (enableLogging d); reflexivity.
Qed.

(** C7 (as the code has it).  When the queued command task fails, by a
    rejection of the transport or by the queue's timeout, then at the time
    the error reaches the caller: the cached on/off state is the one from
    before the command, exactly one request was sent (no retry), no history
    entry and no immediate write to On were made, one timer of 2000 ms was
    started, and the caller gets the HAP status error -70402.  The timer's
    callback writes to On the value the cache holds when it fires: the
    pre-command value if nothing has changed the cache by then.  After a
    timeout the task is only abandoned: when its reply arrives later, it
    sets the cache to the commanded value and adds the history entry, and
    the timer, if it fires after that, writes the commanded value. *)
Theorem failed_command_reports_and_timer_writes_the_cache_it_finds :
  forall (d : device) (value : bool) (reply : outcome unit) (idle : bool)
         (err : jsError),
    result (commandTask value reply d) = Throw err ->
    cacheState (final (internalStateUpdate parseError lang_timeout value reply idle d))
      = cacheState d
    /\ sent (events (internalStateUpdate parseError lang_timeout value reply idle d))
       = [match isToggleX d with
          | Some true =>
              {| namespace := "Appliance.Control.ToggleX";
                 cmd_payload := togglex_payload (if value then 1 else 0) 0 |}
          | _ =>
              {| namespace := "Appliance.Control.Toggle";
                 cmd_payload := toggle_payload (if value then 1 else 0) |}
          end]
    /\ history (events (internalStateUpdate parseError lang_timeout value reply idle d)) = []
    /\ notifications On
         (events (internalStateUpdate parseError lang_timeout value reply idle d)) = []
    /\ timers (events (internalStateUpdate parseError lang_timeout value reply idle d))
       = [(revertOn, 2000)]
    /\ result (internalStateUpdate parseError lang_timeout value reply idle d)
       = Throw (HapStatusError (-70402))
    /\ (forall d' : device,
          events (fire revertOn d') = [UpdateCharacteristic On (VBool (cacheState d'))]
          /\ final (fire revertOn d') = d')
    /\ events (fire revertOn
                 (final (internalStateUpdate parseError lang_timeout value reply idle d)))
       = [UpdateCharacteristic On (VBool (cacheState d))]
    /\ (forall d' : device,
          cacheState (final (commandTaskResumed value d')) = value
          /\ history (events (commandTaskResumed value d'))
             = [entry_status (if value then 1 else 0)]
          /\ sent (events (commandTaskResumed value d')) = []
          /\ events (fire revertOn (final (commandTaskResumed value d')))
             = [UpdateCharacteristic On (VBool value)])
    /\ value <> cacheState d.
Proof.
  intros d value reply idle err R.
  destruct (commandTask_throws value reply d err R) as [N ->].
  rewrite (internalStateUpdate_rejected value err idle d N).
  unfold final, events, result. simpl.
  split; [destruct idle; reflexivity|].
  split; [unfold toggleCommand, truthy; destruct (isToggleX d) as [[]|]; reflexivity|].
  split; [reflexivity|]. split; [reflexivity|]. split; [reflexivity|].
  split; [reflexivity|].
  split; [intro d'; split; reflexivity|].
  split; [destruct idle; reflexivity|].
  split; [|exact N].
  intro d'. rewrite commandTaskResumed_run. simpl.
  destruct (enableLogging d'); repeat split.
Qed.

(** C3 (as the code has it).  When [internalStateUpdate] runs while the
    variant is still unresolved ([isToggleX] undefined) and the requested
    state differs from the cached one, the one request it sends is the
    Legacy one: namespace 'Appliance.Control.Toggle' with a [toggle] payload
    carrying [onoff] in {0, 1} and no channel. *)
Theorem unresolved_variant_sends_Toggle :
  forall (d : device) (value : bool) (reply : outcome unit) (idle : bool),
    isToggleX d = None ->
    value <> cacheState d ->
    sent (events (internalStateUpdate parseError lang_timeout value reply idle d))
    = [{| namespace := "Appliance.Control.Toggle";
          cmd_payload := toggle_payload (if value then 1 else 0) |}].
Proof.
  intros d value reply idle U N.
  destruct reply as [[]|err].
  - rewrite (internalStateUpdate_resolved value idle d N), U.
    unfold events. simpl. destruct (enableLogging d); reflexivity.
  - rewrite (internalStateUpdate_rejected value err idle d N), U. reflexivity.
Qed.

(** C9 (as the code has it).  A full-state response with [all] and without
    [all.system] makes the handler throw at [data.all.system.online], after
    the digest has been dealt with: the variant and the on/off cache are
    those the digest gives (unchanged only when the digest has neither
    [togglex[0]] nor [toggle]).  [requestUpdate] swallows the error; when
    the error text has no connectivity signature, the accessory context,
    online flag included, is unchanged and no accessory update is issued. *)
Theorem poll_without_system_fails_after_the_digest :
  forall (d : device) (firstRun : bool) (a : allInfo) (idle : bool),
    updateInProgress d = false ->
    system a = None ->
    connectivityFailure (parseError (TypeError "online")) = false ->
    result (pollTask firstRun (Resolved (Some {| all := Some a |})) d)
      = Throw (TypeError "online")
    /\ isToggleX (final (requestUpdate parseError lang_timeout firstRun
                           (Resolved (Some {| all := Some a |})) idle d))
       = match digestFragment a with
         | Some (b, _) => Some b
         | None => isToggleX d
         end
    /\ cacheState (final (requestUpdate parseError lang_timeout firstRun
                            (Resolved (Some {| all := Some a |})) idle d))
       = match digestFragment a with
         | Some (_, frag) =>
             match onoff frag with Some v => v =? 1 | None => cacheState d end
         | None => cacheState d
         end
    /\ accessory (final (requestUpdate parseError lang_timeout firstRun
                           (Resolved (Some {| all := Some a |})) idle d))
       = accessory d
    /\ accessoryUpdates (events (requestUpdate parseError lang_timeout firstRun
                                   (Resolved (Some {| all := Some a |})) idle d))
       = O
    /\ result (requestUpdate parseError lang_timeout firstRun
                 (Resolved (Some {| all := Some a |})) idle d)
       = Normal tt.
Proof.
  intros d firstRun a idle P S C.
  set (reply := Resolved (Some {| all := Some a |})).
  destruct (pollTask_spec firstRun reply d) as (V & K & _ & _ & _ & _ & _ & T).
  pose proof (T a eq_refl S) as R.
  destruct (requestUpdate_failed firstRun reply idle d _ P R) as (A & U & N).
  simpl in A, U. rewrite C, andb_false_r in A, U.
  split; [exact R|].
  rewrite (requestUpdate_run firstRun reply idle d P) in *.
  unfold result, final, events in *.
  destruct (pollTask firstRun reply d) as [[r d1] t1]. simpl in *. subst r.
  rewrite pollFailed_run in *. simpl in *.
  rewrite C, andb_false_r in *.
  repeat split; try assumption.
  - destruct idle; exact V.
  - destruct idle; exact K.
Qed.

Lemma requestUpdate_isToggleX (firstRun : bool)
    (reply : outcome (option pollPayload)) (idle : bool) (d : device) :
  isToggleX (final (requestUpdate parseError lang_timeout firstRun reply idle d)) =
  if updateInProgress d then isToggleX d
  else match reply with
       | Resolved res =>
           match pollDigest res with
           | Some (b, _) => Some b
           | None => isToggleX d
           end
       | Rejected _ => isToggleX d
       end.
Proof.
  destruct (updateInProgress d) eqn:P.
  - rewrite (requestUpdate_skipped firstRun reply idle d P). reflexivity.
  - destruct (pollTask_spec firstRun reply d) as (V & _).
    rewrite (requestUpdate_run firstRun reply idle d P).
    unfold final in *.
    destruct (pollTask firstRun reply d) as [[[a|e] d1] t1]; simpl in *.
    + destruct idle; exact V.
    + rewrite pollFailed_run. simpl.
      destruct ((truthy (isOnline (accessory (if idle then _ else _))) || firstRun)
                && _); destruct idle; exact V.
Qed.

Lemma internalStateUpdate_isToggleX (value : bool) (reply : outcome unit)
    (idle : bool) (d : device) :
  isToggleX (final (internalStateUpdate parseError lang_timeout value reply idle d))
  = isToggleX d.
Proof.
  destruct (Bool.eqb value (cacheState d)) eqn:E.
  - apply eqb_prop in E. rewrite (internalStateUpdate_same value reply idle d E).
    destruct idle; reflexivity.
  - assert (N : value <> cacheState d).
    { intros ->. rewrite eqb_reflx in E. discriminate. }
    destruct reply as [[]|err].
    + rewrite (internalStateUpdate_resolved value idle d N). destruct idle; reflexivity.
    + rewrite (internalStateUpdate_rejected value err idle d N).
      destruct idle; reflexivity.
Qed.

Lemma receiveUpdate_isToggleX (params : pushParams) (d : device) :
  isToggleX (final (receiveUpdate parseError params d)) = isToggleX d.
Proof.
  run_unfold. unfold firstOf.
  destruct params as [[[[[|? ?]|] [?|]]|]]; run_poll; run_done.
Qed.

Lemma requestPowerReadings_isToggleX (reply : outcome (option powerPayload))
    (idle : bool) (d : device) :
  isToggleX (final (requestPowerReadings parseError lang_timeout reply idle d))
  = isToggleX d.
Proof.
  run_unfold.
  destruct reply as [[[[?|]]|]|?]; destruct idle; run_poll; run_done.
Qed.

(** Only a resolved full-state poll can change the variant. *)
Lemma perform_isToggleX (c : call) (d : device) :
  isToggleX (final (perform parseError lang_timeout c d)) =
  match c with
  | call_requestUpdate _ (Resolved res) _ =>
      if updateInProgress d then isToggleX d
      else match pollDigest res with
           | Some (b, _) => Some b
           | None => isToggleX d
           end
  | _ => isToggleX d
  end.
Proof.
  destruct c as [value reply idle | firstRun reply idle | params | reply idle | cb];
    simpl.
  - apply internalStateUpdate_isToggleX.
  - rewrite requestUpdate_isToggleX.
    destruct reply, (updateInProgress d); reflexivity.
  - apply receiveUpdate_isToggleX.
  - apply requestPowerReadings_isToggleX.
  - destruct cb. reflexivity.
Qed.

Lemma performAll_keeps_variant_resolved (cs : list call) (d : device) :
  isToggleX d <> None ->
  isToggleX (performAll parseError lang_timeout cs d) <> None.
Proof.
  revert d. induction cs as [|c rest IH]; intros d R; simpl.
  - exact R.
  - apply IH. rewrite perform_isToggleX.
    destruct c as [| ? [res|] ? | | |]; try exact R.
    destruct (updateInProgress d); [exact R|].
    destruct (pollDigest res) as [[b ?]|]; [discriminate | exact R].
Qed.

(** C4 (as the code has it).  Once resolved, the variant never returns to
    unresolved, whatever calls follow.  It is not sticky: every resolved
    full-state poll, first run or not, sets it to Extended when the digest
    has [togglex[0]], to Legacy when it has [toggle] instead, and leaves it
    alone when the digest has neither.  No other call changes it. *)
Theorem variant_follows_each_poll_and_stays_resolved :
  forall (cs : list call) (d : device) (firstRun : bool) (res : option pollPayload)
         (idle : bool) (c : call) (d0 : device),
    (isToggleX d <> None ->
     isToggleX (performAll parseError lang_timeout cs d) <> None)
    /\ (updateInProgress d0 = false ->
        isToggleX (final (requestUpdate parseError lang_timeout firstRun
                            (Resolved res) idle d0))
        = match pollDigest res with
          | Some (b, _) => Some b
          | None => isToggleX d0
          end)
    /\ ((forall fr rp i, c <> call_requestUpdate fr rp i) ->
        isToggleX (final (perform parseError lang_timeout c d0)) = isToggleX d0).
Proof.
  intros cs d firstRun res idle c d0. split; [|split].
  - apply performAll_keeps_variant_resolved.
  - intro P. rewrite requestUpdate_isToggleX, P. reflexivity.
  - intro N. rewrite perform_isToggleX.
    destruct c as [| fr rp i | | |]; try reflexivity.
    exfalso. apply (N fr rp i). reflexivity.
Qed.


Lemma powerTaskResumed_run (res : option powerPayload) (frag : fragment) (d : device) :
  powerFragment res = Some frag ->
  powerTaskResumed res d =
  (result (applyUpdate frag d), final (applyUpdate frag d),
   (if enableDebugLogging d then [Log incPoll] else []) ++ events (applyUpdate frag d)).
Proof.
  intro F. unfold powerFragment in F. destruct res as [data|]; [|discriminate].
  unfold powerTaskResumed. rewrite F. run_unfold.
  unfold result, final, events.
  destruct (enableDebugLogging d); simpl;
    destruct (applyUpdate frag d) as [[r d1] t]; reflexivity.
Qed.

(** X2.  A power poll whose request is rejected, or given up by the queue,
    is swallowed: when [requestPowerReadings] is over it has added the
    history entry [{ power: 0 }] and changed neither the accessory context
    (the online flag included) nor the cache.  A reply with [electricity]
    that arrives after the queue's timeout is still merged by the abandoned
    task, as [applyUpdate] of that fragment. *)
Theorem failed_power_poll_records_zero_power :
  forall (err : jsError) (idle : bool) (d : device),
    result (requestPowerReadings parseError lang_timeout (Rejected err) idle d)
      = Normal tt
    /\ history (events (requestPowerReadings parseError lang_timeout (Rejected err) idle d))
       = [entry_power 0]
    /\ accessoryUpdates
         (events (requestPowerReadings parseError lang_timeout (Rejected err) idle d)) = O
    /\ accessory (final (requestPowerReadings parseError lang_timeout (Rejected err) idle d))
       = accessory d
    /\ cacheState (final (requestPowerReadings parseError lang_timeout (Rejected err) idle d))
       = cacheState d
    /\ cachePower (final (requestPowerReadings parseError lang_timeout (Rejected err) idle d))
       = cachePower d
    /\ (forall (res : option powerPayload) (frag : fragment) (d' : device),
          powerFragment res = Some frag ->
          final (powerTaskResumed res d') = final (applyUpdate frag d')
          /\ events (powerTaskResumed res d')
             = (if enableDebugLogging d' then [Log incPoll] else [])
               ++ events (applyUpdate frag d')).
Proof.
  intros err idle d.
  split; [|split; [|split; [|split; [|split; [|split]]]]];
    try (run_unfold; destruct idle; simpl; destruct (enableDebugLogging d);
         reflexivity).
  intros res frag d' F. rewrite (powerTaskResumed_run res frag d' F).
  split; reflexivity.
Qed.

(** X3.  A command for a state other than the cached one that the transport
    accepts: one request is sent, 'Appliance.Control.ToggleX' with
    [togglex: { onoff, channel: 0 }] when [isToggleX] is [true] and
    'Appliance.Control.Toggle' with [toggle: { onoff }] otherwise; the cache
    takes the requested state, one history entry with that state is added,
    and no timer is started. *)
Theorem accepted_command_updates_cache_and_history :
  forall (d : device) (value : bool) (idle : bool),
    value <> cacheState d ->
    result (internalStateUpdate parseError lang_timeout value (Resolved tt) idle d)
      = Normal tt
    /\ cacheState (final (internalStateUpdate parseError lang_timeout value
                            (Resolved tt) idle d)) = value
    /\ sent (events (internalStateUpdate parseError lang_timeout value
                       (Resolved tt) idle d))
       = [match isToggleX d with
          | Some true =>
              {| namespace := "Appliance.Control.ToggleX";
                 cmd_payload := togglex_payload (if value then 1 else 0) 0 |}
          | _ =>
              {| namespace := "Appliance.Control.Toggle";
                 cmd_payload := toggle_payload (if value then 1 else 0) |}
          end]
    /\ history (events (internalStateUpdate parseError lang_timeout value
                          (Resolved tt) idle d))
       = [entry_status (if value then 1 else 0)]
    /\ timers (events (internalStateUpdate parseError lang_timeout value
                         (Resolved tt) idle d)) = [].
Proof.
  intros d value idle N.
  rewrite (internalStateUpdate_resolved value idle d N).
  unfold result, final, events, toggleCommand, truthy. simpl.
  destruct idle, (enableLogging d), (isToggleX d) as [[]|]; repeat split.
Qed.
End Requests.

(** ** The claims at concrete inputs *)

(** C8 at [switch_on]: asked to switch on while cached as on. *)
Lemma command_for_the_cached_state_does_nothing_witness :
  true = cacheState switch_on
  /\ events (internalStateUpdate message_of "request timed out" true
               (Resolved tt) true switch_on) = []
  /\ cacheState (final (internalStateUpdate message_of "request timed out" true
                          (Resolved tt) true switch_on)) = true.
Proof.
  pose proof (command_for_the_cached_state_does_nothing message_of
                "request timed out" switch_on true (Resolved tt) true eq_refl)
    as (_ & E & _ & _ & C & _).
  split; [reflexivity|]. split; [exact E | exact C].
Defined.

(** C7 at [timed_out_command]: switching on a switch cached as off, the
    queue times out; then the reply arrives, at [late_reply]. *)
Lemma failed_command_reports_and_timer_writes_the_cache_it_finds_witness :
  result (commandTask true (Rejected TimeoutError) switch_off) = Throw TimeoutError
  /\ cacheState (final timed_out_command) = false
  /\ sent (events timed_out_command)
     = [{| namespace := "Appliance.Control.Toggle"; cmd_payload := toggle_payload 1 |}]
  /\ timers (events timed_out_command) = [(revertOn, 2000)]
  /\ result timed_out_command = Throw (HapStatusError (-70402))
  /\ events (fire revertOn (final timed_out_command))
     = [UpdateCharacteristic On (VBool false)]
  /\ cacheState (final late_reply) = true
  /\ events (fire revertOn (final late_reply))
     = [UpdateCharacteristic On (VBool true)].
Proof.
  pose proof (failed_command_reports_and_timer_writes_the_cache_it_finds message_of
                "request timed out" switch_off true (Rejected TimeoutError) true
                TimeoutError eq_refl)
    as (C & S & _ & _ & T & R & _ & F & L & _).
  destruct (L (final timed_out_command)) as (LC & _ & _ & LF).
  split; [reflexivity|]. split; [exact C|]. split; [exact S|].
  split; [exact T|]. split; [exact R|]. split; [exact F|].
  split; [exact LC | exact LF].
Defined.

(** C7 as the specification has it fails at [timed_out_command]: the switch
    was cached as off, the command to switch it on failed, and the timer
    still writes [true] to On, once after the user's repeated command was
    accepted and once after the late reply to the command that timed out,
    which has also changed the cache. *)
Lemma failed_command_timer_can_write_the_commanded_state :
  cacheState switch_off = false
  /\ result timed_out_command = Throw (HapStatusError (-70402))
  /\ timers (events timed_out_command) = [(revertOn, 2000)]
  /\ result repeated_command = Normal tt
  /\ events (fire revertOn (final repeated_command))
     = [UpdateCharacteristic On (VBool true)]
  /\ cacheState (final late_reply) = true
  /\ events (fire revertOn (final late_reply))
     = [UpdateCharacteristic On (VBool true)]
  /\ VBool true <> VBool (cacheState switch_off).
Proof. repeat (split; [reflexivity|]). discriminate. Qed.

(** C3 at [early_command]. *)
Lemma unresolved_variant_sends_Toggle_witness :
  isToggleX switch_off = None
  /\ true <> cacheState switch_off
  /\ sent (events early_command)
     = [{| namespace := "Appliance.Control.Toggle"; cmd_payload := toggle_payload 1 |}].
Proof.
  split; [reflexivity|]. split; [discriminate|].
  apply (unresolved_variant_sends_Toggle message_of "request timed out"
           switch_off true (Resolved tt) true); [reflexivity | discriminate].
Defined.

(** C3 as stated fails at [early_command]: the variant is unresolved, and
    the request sent is not a ToggleX one. *)
Lemma unresolved_variant_does_not_send_ToggleX :
  isToggleX switch_off = None
  /\ ~ (exists onoff,
         In {| namespace := "Appliance.Control.ToggleX";
               cmd_payload := togglex_payload onoff 0 |}
            (sent (events early_command))).
Proof.
  split; [reflexivity|].
  intros (onoff & [H|[]]). discriminate.
Qed.

(** C4 as stated fails: [first_poll] resolves the variant to Extended, and
    [later_poll], not a first run, changes it to Legacy. *)
Lemma later_poll_changes_resolved_variant :
  isToggleX switch_off = None
  /\ isToggleX (final first_poll) = Some true
  /\ isToggleX (final later_poll) = Some false.
Proof. repeat split. Qed.

(** C6 at [timed_out_poll] and [timed_out_again]: the first timeout marks
    the device offline with one accessory update, the second issues none;
    at [unreachable_poll], which marks it offline as well; and at
    [reset_poll], whose error text has neither signature and which does
    not. *)
Lemma failed_poll_marks_offline_iff_connectivity_failure_witness :
  updateInProgress switch_on = false
  /\ result (pollTask false (Rejected TimeoutError) switch_on) = Throw TimeoutError
  /\ isOnline (accessory (final timed_out_poll)) = Some false
  /\ accessoryUpdates (events timed_out_poll) = 1%nat
  /\ accessoryUpdates (events timed_out_again) = O
  /\ isOnline (accessory (final unreachable_poll)) = Some false
  /\ accessoryUpdates (events unreachable_poll) = 1%nat
  /\ ~ (isOnline (accessory (final reset_poll)) = Some false
        /\ accessoryUpdates (events reset_poll) = 1%nat).
Proof.
  pose proof (failed_poll_marks_offline_iff_connectivity_failure message_of
                "request timed out" switch_on false (Rejected TimeoutError) true
                TimeoutError "request timed out" eq_refl eq_refl eq_refl)
    as (Iff & _ & Again).
  destruct (proj2 Iff) as [Off Once].
  { split; [right; exists "request ", ""; reflexivity | left; reflexivity]. }
  pose proof (failed_poll_marks_offline_iff_connectivity_failure message_of
                "request timed out" switch_on false
                (Rejected (Error "connect EHOSTUNREACH 192.168.1.20:80")) true
                (Error "connect EHOSTUNREACH 192.168.1.20:80")
                "connect EHOSTUNREACH 192.168.1.20:80" eq_refl eq_refl eq_refl)
    as (Iff2 & _).
  destruct (proj2 Iff2) as [Off2 Once2].
  { split; [left; exists "connect ", " 192.168.1.20:80"; reflexivity
           | left; reflexivity]. }
  pose proof (failed_poll_marks_offline_iff_connectivity_failure message_of
                "request timed out" switch_on false
                (Rejected (Error "read ECONNRESET")) true
                (Error "read ECONNRESET") "read ECONNRESET" eq_refl eq_refl eq_refl)
    as (Iff3 & _).
  split; [reflexivity|]. split; [reflexivity|].
  split; [exact Off|]. split; [exact Once|].
  split; [apply (Again (final timed_out_poll) (Rejected TimeoutError) true
                   TimeoutError); reflexivity|].
  split; [exact Off2|]. split; [exact Once2|].
  intro H. apply (proj1 Iff3) in H. destruct H as [[S | S] _].
  - apply includes_substring in S. discriminate S.
  - apply includes_substring in S. discriminate S.
Defined.

(** C9 at [poll_run_without_system]. *)
Lemma poll_without_system_fails_after_the_digest_witness :
  updateInProgress switch_off = false
  /\ system {| digest := Some {| togglex := Some [reported_on]; toggle := None |};
               system := None |} = None
  /\ connectivityFailure (message_of (TypeError "online")) = false
  /\ isToggleX (final poll_run_without_system) = Some true
  /\ cacheState (final poll_run_without_system) = true
  /\ accessory (final poll_run_without_system) = accessory switch_off
  /\ accessoryUpdates (events poll_run_without_system) = O.
Proof.
  pose proof (poll_without_system_fails_after_the_digest message_of
                "request timed out" switch_off false
                {| digest := Some {| togglex := Some [reported_on]; toggle := None |};
                   system := None |}
                true eq_refl eq_refl eq_refl)
    as (_ & V & C & A & U & _).
  split; [reflexivity|]. split; [reflexivity|]. split; [reflexivity|].
  split; [exact V|]. split; [exact C|]. split; [exact A | exact U].
Defined.

(** C9 as stated fails at [poll_run_without_system]: the handler throws, yet
    the on/off cache and the variant have changed. *)
Lemma poll_without_system_changes_cache_and_variant :
  result (pollTask false (Resolved (Some poll_without_system)) switch_off)
    = Throw (TypeError "online")
  /\ cacheState switch_off = false
  /\ cacheState (final poll_run_without_system) = true
  /\ isToggleX switch_off = None
  /\ isToggleX (final poll_run_without_system) = Some true
  /\ cacheState (final poll_run_without_system) <> cacheState switch_off
  /\ isToggleX (final poll_run_without_system) <> isToggleX switch_off.
Proof. repeat split; discriminate. Qed.

(** X2 at [timed_out_power_poll] and [late_power_reply]. *)
Lemma failed_power_poll_records_zero_power_witness :
  history (events timed_out_power_poll) = [entry_power 0]
  /\ cachePower (final timed_out_power_poll) = None
  /\ cachePower (final late_power_reply) = Some 12000
  /\ notifications CurrentConsumption (events late_power_reply) = [VNum 12].
Proof.
  pose proof (failed_power_poll_records_zero_power message_of "request timed out"
                TimeoutError true switch_on) as (_ & H & _ & _ & _ & P & L).
  destruct (L (Some {| electricity := Some reading_12000_2300 |}) reading_12000_2300
              (final timed_out_power_poll) eq_refl) as [F E].
  split; [exact H|]. split; [exact P|].
  unfold late_power_reply. rewrite F, E. split; reflexivity.
Defined.

(** X3 at [early_command], where the variant is unresolved, and at
    [later_command], where it is Extended. *)
Lemma accepted_command_updates_cache_and_history_witness :
  true <> cacheState switch_off
  /\ cacheState (final early_command) = true
  /\ sent (events early_command)
     = [{| namespace := "Appliance.Control.Toggle"; cmd_payload := toggle_payload 1 |}]
  /\ history (events early_command) = [entry_status 1]
  /\ false <> cacheState (final first_poll)
  /\ isToggleX (final first_poll) = Some true
  /\ cacheState (final later_command) = false
  /\ sent (events later_command)
     = [{| namespace := "Appliance.Control.ToggleX";
           cmd_payload := togglex_payload 0 0 |}]
  /\ history (events later_command) = [entry_status 0].
Proof.
  pose proof (accepted_command_updates_cache_and_history message_of
                "request timed out" switch_off true true
                ltac:(discriminate))
    as (_ & C & S & H & _).
  pose proof (accepted_command_updates_cache_and_history message_of
                "request timed out" (final first_poll) false true
                ltac:(discriminate))
    as (_ & C2 & S2 & H2 & _).
  split; [discriminate|]. split; [exact C|]. split; [exact S|]. split; [exact H|].
  split; [discriminate|]. split; [reflexivity|]. split; [exact C2|].
  split; [exact S2 | exact H2].
Defined.

(** X4 at the first and at a later poll of a switch whose accessory context
    already says online: the first run updates the accessory, the later
    run, with nothing new, does not. *)
Lemma first_poll_always_updates_accessory_later_polls_on_change_witness :
  accessoryUpdates
    (events (pollTask true
               (Resolved (Some {| all := Some {| digest := None;
                                                 system := Some system_online |} |}))
               switch_off)) = 1%nat
  /\ accessoryUpdates
       (events (pollTask false
                  (Resolved (Some {| all := Some {| digest := None;
                                                    system := Some system_online |} |}))
                  switch_off)) = O.
Proof.
  split.
  - apply (first_poll_always_updates_accessory_later_polls_on_change true
             {| digest := None; system := Some system_online |} switch_off).
    reflexivity.
  - apply (first_poll_always_updates_accessory_later_polls_on_change false
             {| digest := None; system := Some system_online |} switch_off).
    reflexivity.
Defined.

(** * More of the handler *)

(** ** Repeated and derived updates *)

(** A fragment whose every field is already the cached one. *)
Lemma applyUpdate_noop (data : fragment) (d : device) :
  (forall v, onoff data = Some v -> cacheState d = (v =? 1)) ->
  (forall p, power data = Some p -> cachePower d = Some p) ->
  (forall u, voltage data = Some u -> cacheVoltage d = Some u) ->
  applyUpdate data d = (Normal tt, d, []).
Proof.
  intros Ho Hp Hv. destruct data as [o p u]; simpl in *.
  assert (So : forall v, o = Some v -> negb (Bool.eqb (cacheState d) (v =? 1)) = false).
  { intros v E. apply eqb_false_ne. now apply Ho. }
  assert (Sp : forall x, p = Some x -> strictNeZ (cachePower d) (Some x) = false).
  { intros x E. apply strictNeZ_false. now apply Hp. }
  assert (Sv : forall x, u = Some x -> strictNeZ (cacheVoltage d) (Some x) = false).
  { intros x E. apply strictNeZ_false. now apply Hv. }
  assert (Si : strictNeBool (cacheInUse d) (cacheInUse d) = false)
    by now apply strictNeBool_false.
  js_unfold; simpl.
  destruct o as [v|], p as [x|], u as [y|]; simpl;
    rewrite ?(So _ eq_refl), ?(Sp _ eq_refl); simpl;
    rewrite ?Si; simpl; rewrite ?(Sv _ eq_refl); reflexivity.
Qed.

(** X5.  Applying the same fragment a second time does nothing: the state is
    the one the first application left, and no collaborator is called. *)
Theorem applyUpdate_is_idempotent :
  forall (data : fragment) (d : device),
    applyUpdate data (final (applyUpdate data d))
    = (Normal tt, final (applyUpdate data d), []).
Proof.
  intros data d. apply applyUpdate_noop.
  - intros v E. rewrite applyUpdate_cacheState, E. reflexivity.
  - intros p E. rewrite applyUpdate_cachePower, E. reflexivity.
  - intros u E. rewrite applyUpdate_cacheVoltage, E. reflexivity.
Qed.

Lemma applyUpdate_history (data : fragment) (d : device) :
  history (events (applyUpdate data d)) =
  match onoff data with
  | Some v =>
      if negb (Bool.eqb (cacheState d) (v =? 1))
      then [entry_status (if v =? 1 then 1 else 0)] else []
  | None => []
  end.
Proof. by_cases_on data; reflexivity. Qed.

(** X6.  When a call of [applyUpdate] turns the cached in-use value on, the
    switch is cached as on after that call, and the fragment carries a
    power reading that differs from the cached one and scales to more than
    the threshold. *)
Theorem in_use_is_set_only_while_cached_on :
  forall (data : fragment) (d : device),
    cacheInUse d <> Some true ->
    cacheInUse (final (applyUpdate data d)) = Some true ->
    cacheState (final (applyUpdate data d)) = true
    /\ exists p, power data = Some p
                 /\ cachePower d <> Some p
                 /\ Qgtb (scaledPower p) (inUsePowerThreshold d) = true.
Proof.
  intros data d Off On'.
  rewrite applyUpdate_cacheInUse in On'.
  destruct (power data) as [p|]; [|contradiction].
  destruct (strictNeZ (cachePower d) (Some p)) eqn:T; [|contradiction].
  injection On' as A. apply andb_true_iff in A as [A B].
  split; [exact A|]. exists p. repeat split; try assumption.
  now apply strictNeZ_true.
Qed.

(** X7.  [applyUpdate] adds a history entry exactly when it writes the On
    characteristic, with status 1 for on and 0 for off. *)
Theorem history_mirrors_on_off_changes :
  forall (data : fragment) (d : device),
    history (events (applyUpdate data d))
    = map (fun v => match v with
                    | VBool true => entry_status 1
                    | _ => entry_status 0
                    end)
          (notifications On (events (applyUpdate data d))).
Proof.
  intros data d. rewrite applyUpdate_history, applyUpdate_notifies_On.
  destruct (onoff data) as [v|]; [|reflexivity].
  destruct (negb (Bool.eqb (cacheState d) (v =? 1))); [|reflexivity].
  simpl. destruct (v =? 1); reflexivity.
Qed.

(** ** Error texts *)

(** X8.  The test of line 241 holds exactly for the error texts that have
    'EHOSTUNREACH' or 'timed out' as a substring, in that spelling. *)
Theorem connectivityFailure_is_substring_match :
  forall eText : string,
    connectivityFailure eText = true
    <-> exists pre post,
          eText = String.append pre (String.append "EHOSTUNREACH" post)
          \/ eText = String.append pre (String.append "timed out" post).
Proof.
  intro eText. unfold connectivityFailure, existsb.
  rewrite orb_false_r, orb_true_iff, !includes_substring. split.
  - intros [(pre & post & E) | (pre & post & E)]; exists pre, post; auto.
  - intros (pre & post & [E|E]); [left | right]; now exists pre, post.
Qed.

(** ** Identity fields *)

Lemma strictNeString_false (a b : option string) :
  strictNeString a b = false <-> a = b.
Proof.
  destruct a as [x|], b as [y|]; simpl; split; intro H;
    try discriminate; try reflexivity.
  - apply negb_false_iff, String.eqb_eq in H. now subst.
  - inversion H. now rewrite String.eqb_refl.
Qed.

Ltac run_context :=
  intros; unfold result, final, events in *; simpl in *;
  try discriminate;
  repeat match goal with H : _ /\ _ |- _ => destruct H end;
  repeat match goal with
         | H : accessory ?x = accessory _ |- _ => is_var x; rewrite H in *; clear H
         end;
  repeat match goal with
         | H : strictNeString _ _ = false |- _ =>
             apply (proj1 (strictNeString_false _ _)) in H
         | H : strictNeBool _ _ = false |- _ =>
             apply (proj1 (strictNeBool_false _ _)) in H
         end;
  repeat split; try discriminate; js_done.

(** The digest step of the poll task, lines 181-189. *)
Lemma digest_step (dg : option digestInfo) (s : device) :
  exists d' t',
    (match dg with
     | Some dg =>
         match firstOf (togglex dg) with
         | Some frag => modify (set_isToggleX (Some true)) ;; applyUpdate frag
         | None =>
             match toggle dg with
             | Some frag => modify (set_isToggleX (Some false)) ;; applyUpdate frag
             | None => ret tt
             end
         end
     | None => ret tt
     end) s = (Normal tt, d', t')
    /\ accessory d' = accessory s
    /\ accessoryUpdates t' = O.
Proof.
  unfold firstOf, bind, modify, ret.
  destruct_digest dg; simpl; try run_applyUpdate; simpl;
    do 2 eexists; (split; [reflexivity|]);
    repeat match goal with H : _ /\ _ |- _ => destruct H end; simpl in *;
    autorewrite with trace; auto.
Qed.


Lemma pollTask_context (firstRun : bool) (dg : option digestInfo)
    (hw : option hardwareInfo) (fw : option firmwareInfo) (on : option onlineInfo)
    (d : device) :
  result (pollTask firstRun
            (Resolved (Some {| all := Some {| digest := dg;
                 system := Some {| sys_hardware := hw; sys_firmware := fw;
                                   sys_online := on |} |} |})) d)
  = match (if firstRun then hw else None) with
    | Some h =>
        match hw_macAddress h with
        | Some _ => Normal tt
        | None => Throw (TypeError "toUpperCase")
        end
    | None => Normal tt
    end
  /\ (result (pollTask firstRun
            (Resolved (Some {| all := Some {| digest := dg;
                 system := Some {| sys_hardware := hw; sys_firmware := fw;
                                   sys_online := on |} |} |})) d) = Normal tt ->
  ipAddress (accessory (final (pollTask firstRun
            (Resolved (Some {| all := Some {| digest := dg;
                 system := Some {| sys_hardware := hw; sys_firmware := fw;
                                   sys_online := on |} |} |})) d)))
    = match fw with
      | Some f => fw_innerIp f
      | None => ipAddress (accessory d)
      end
  /\ isOnline (accessory (final (pollTask firstRun
            (Resolved (Some {| all := Some {| digest := dg;
                 system := Some {| sys_hardware := hw; sys_firmware := fw;
                                   sys_online := on |} |} |})) d)))
    = match on with
      | Some o => Some (status o =? 1)
      | None => isOnline (accessory d)
      end
  /\ macAddress (accessory (final (pollTask firstRun
            (Resolved (Some {| all := Some {| digest := dg;
                 system := Some {| sys_hardware := hw; sys_firmware := fw;
                                   sys_online := on |} |} |})) d)))
    = match (if firstRun then hw else None) with
      | Some h => option_map toUpperCase (hw_macAddress h)
      | None => macAddress (accessory d)
      end
  /\ hardware (accessory (final (pollTask firstRun
            (Resolved (Some {| all := Some {| digest := dg;
                 system := Some {| sys_hardware := hw; sys_firmware := fw;
                                   sys_online := on |} |} |})) d)))
    = match (if firstRun then hw else None) with
      | Some h => hw_version h
      | None => hardware (accessory d)
      end
  /\ firmware (accessory (final (pollTask firstRun
            (Resolved (Some {| all := Some {| digest := dg;
                 system := Some {| sys_hardware := hw; sys_firmware := fw;
                                   sys_online := on |} |} |})) d)))
    = match fw with
      | Some f => if firstRun then fw_version f else firmware (accessory d)
      | None => firmware (accessory d)
      end).
Proof.
  destruct (digest_step dg (set_updateInProgress true d)) as (d' & t' & E & A & _).
  run_unfold. simpl in *.
  destruct (enableDebugLogging d); simpl; rewrite E; clear E;
    destruct hw as [[[?|] ?]|]; destruct fw as [[? ?]|];
    destruct on as [[?]|]; destruct firstRun; run_poll.
  all: (split; [reflexivity | run_context]).
Qed.

Lemma upcase_idempotent (c : ascii) : upcase (upcase c) = upcase c.
Proof. destruct c as [[] [] [] [] [] [] [] []]; reflexivity. Qed.

Lemma toUpperCase_idempotent (s : string) :
  toUpperCase (toUpperCase s) = toUpperCase s.
Proof.
  induction s as [|c s IH]; simpl; [reflexivity|].
  now rewrite upcase_idempotent, IH.
Qed.


Section MoreRequests.

Variable parseError : jsError -> string.
Variable lang_timeout : string.

(** X9.  A push message is merged as [applyUpdate] of one fragment:
    [payload.togglex[0]] when there is one, else [payload.toggle], and
    nothing when the message has neither or no payload.  The only other
    call is the debug log. *)
Theorem push_update_is_applyUpdate_of_its_fragment :
  forall (params : pushParams) (d : device),
    final (receiveUpdate parseError params d)
    = match pushFragment params with
      | Some frag => final (applyUpdate frag d)
      | None => d
      end
    /\ events (receiveUpdate parseError params d)
       = (if enableDebugLogging d then [Log incMQTT] else [])
         ++ match pushFragment params with
            | Some frag => events (applyUpdate frag d)
            | None => []
            end.
Proof.
  intros params d. unfold pushFragment, receiveUpdate, tryCatch, bind, get, when, emit, ret.
  destruct params as [[[tx tg]|]]; simpl.
  - destruct (firstOf tx) as [frag|]; [|destruct tg as [frag|]];
      destruct (enableDebugLogging d); simpl;
      try rewrite applyUpdate_run; simpl; rewrite ?app_nil_r; split; reflexivity.
  - destruct (enableDebugLogging d); split; reflexivity.
Qed.

(** X10.  A power poll sends its request whatever [updateInProgress] is.
    When it is answered, the state is that of [applyUpdate] on
    [payload.electricity], and it is left alone when the answer has none;
    no zero-power history entry is added. *)
Theorem power_poll_is_never_skipped_and_applies_its_fragment :
  forall (res : option powerPayload) (idle : bool) (d : device),
    sent (events (requestPowerReadings parseError lang_timeout (Resolved res) idle d))
      = [electricityCommand]
    /\ history (events (requestPowerReadings parseError lang_timeout (Resolved res) idle d))
      = match powerFragment res with
        | Some frag => history (events (applyUpdate frag (set_updateInProgress true d)))
        | None => []
        end
    /\ final (requestPowerReadings parseError lang_timeout (Resolved res) idle d)
      = (let d1 := match powerFragment res with
                   | Some frag => final (applyUpdate frag (set_updateInProgress true d))
                   | None => set_updateInProgress true d
                   end in
         if idle then set_updateInProgress false d1 else d1)
    /\ result (requestPowerReadings parseError lang_timeout (Resolved res) idle d)
      = Normal tt.
Proof.
  intros res idle d.
  unfold powerFragment, electricityCommand, requestPowerReadings, tryCatch, queue_add,
    sendUpdate, bind, get, modify, when, emit, ret.
  destruct res as [[[frag|]]|]; simpl; destruct (enableDebugLogging d); simpl;
    try (pose proof (applyUpdate_quiet frag (set_updateInProgress true d)) as (S & _);
         rewrite applyUpdate_run); simpl;
    unfold final, events, result in *; simpl; autorewrite with trace; simpl;
    rewrite ?S; destruct idle; repeat split.
Qed.


Lemma requestUpdate_sent (firstRun : bool) (reply : outcome (option pollPayload))
    (idle : bool) (d : device) :
  updateInProgress d = false ->
  sent (events (requestUpdate parseError lang_timeout firstRun reply idle d))
  = [pollCommand].
Proof.
  intro P.
  destruct (pollTask_spec firstRun reply d) as (_ & _ & _ & _ & S & _).
  rewrite (requestUpdate_run parseError lang_timeout firstRun reply idle d P).
  unfold events in *.
  destruct (pollTask firstRun reply d) as [[[a|e] d1] t1]; simpl in *; [exact S|].
  rewrite pollFailed_run. simpl. autorewrite with trace. rewrite S.
  destruct (enableDebugLogging _), ((truthy _ || firstRun) && _); reflexivity.
Qed.

(** X11.  After a command that went to the transport, a full-state poll is
    dropped without any call while the queue has not gone idle, and is sent
    once it has. *)
Theorem poll_is_dropped_until_the_queue_is_idle :
  forall (d : device) (value : bool) (reply : outcome unit) (idle : bool)
         (firstRun : bool) (preply : outcome (option pollPayload)) (pidle : bool),
    value <> cacheState d ->
    (idle = false ->
     requestUpdate parseError lang_timeout firstRun preply pidle
       (final (internalStateUpdate parseError lang_timeout value reply idle d))
     = (Normal tt,
        final (internalStateUpdate parseError lang_timeout value reply idle d), []))
    /\ (idle = true ->
        sent (events
                (requestUpdate parseError lang_timeout firstRun preply pidle
                   (final (internalStateUpdate parseError lang_timeout value reply
                             idle d))))
        = [pollCommand]).
Proof.
  intros d value reply idle firstRun preply pidle N.
  assert (U : updateInProgress
                (final (internalStateUpdate parseError lang_timeout value reply idle d))
              = negb idle).
  { destruct reply as [[]|err].
    - rewrite (internalStateUpdate_resolved parseError lang_timeout value idle d N).
      destruct idle; reflexivity.
    - rewrite (internalStateUpdate_rejected parseError lang_timeout value err idle d N).
      destruct idle; reflexivity. }
  split; intros ->; simpl in U.
  - now apply requestUpdate_skipped.
  - now apply requestUpdate_sent.
Qed.

(** X12.  When a command fails and the same command is accepted before the
    revert timer fires, the timer writes the accepted state to On; firing
    the timer never changes the handler's state. *)
Theorem late_revert_timer_writes_the_newer_accepted_state :
  forall (d : device) (value : bool) (err : jsError) (idle1 idle2 : bool),
    value <> cacheState d ->
    events (fire revertOn
              (final (internalStateUpdate parseError lang_timeout value (Resolved tt) idle2
                        (final (internalStateUpdate parseError lang_timeout value
                                  (Rejected err) idle1 d)))))
    = [UpdateCharacteristic On (VBool value)]
    /\ (forall d' : device, final (fire revertOn d') = d').
Proof.
  intros d value err idle1 idle2 N.
  rewrite (internalStateUpdate_rejected parseError lang_timeout value err idle1 d N).
  unfold final at 2. simpl.
  rewrite internalStateUpdate_resolved by (destruct idle1; exact N).
  split; [destruct idle1, idle2; reflexivity | reflexivity].
Qed.


(** The [catch] block of [requestUpdate] and the queue's idle listener write
    the online flag and [updateInProgress] only. *)
Lemma pollFailed_identity (firstRun : bool) (err : jsError) (idle : bool) (d : device) :
  macAddress (accessory (final (pollFailed parseError lang_timeout firstRun err
       (if idle then set_updateInProgress false d else d)))) = macAddress (accessory d)
  /\ hardware (accessory (final (pollFailed parseError lang_timeout firstRun err
       (if idle then set_updateInProgress false d else d)))) = hardware (accessory d)
  /\ firmware (accessory (final (pollFailed parseError lang_timeout firstRun err
       (if idle then set_updateInProgress false d else d)))) = firmware (accessory d)
  /\ ipAddress (accessory (final (pollFailed parseError lang_timeout firstRun err
       (if idle then set_updateInProgress false d else d)))) = ipAddress (accessory d).
Proof.
  rewrite pollFailed_run. unfold final. simpl.
  destruct ((truthy _ || firstRun) && _), idle; repeat split.
Qed.

Lemma requestUpdate_identity_of_task (firstRun : bool)
    (reply : outcome (option pollPayload)) (idle : bool) (d : device) :
  updateInProgress d = false ->
  macAddress (accessory (final (requestUpdate parseError lang_timeout firstRun reply idle d)))
    = macAddress (accessory (final (pollTask firstRun reply d)))
  /\ hardware (accessory (final (requestUpdate parseError lang_timeout firstRun reply idle d)))
    = hardware (accessory (final (pollTask firstRun reply d)))
  /\ firmware (accessory (final (requestUpdate parseError lang_timeout firstRun reply idle d)))
    = firmware (accessory (final (pollTask firstRun reply d)))
  /\ ipAddress (accessory (final (requestUpdate parseError lang_timeout firstRun reply idle d)))
    = ipAddress (accessory (final (pollTask firstRun reply d))).
Proof.
  intro P. rewrite (requestUpdate_run parseError lang_timeout firstRun reply idle d P).
  destruct (pollTask firstRun reply d) as [[[a|e] d1] t1].
  - unfold final. simpl. destruct idle; repeat split.
  - pose proof (pollFailed_identity firstRun e idle d1) as I.
    unfold final in *.
    destruct (pollFailed parseError lang_timeout firstRun e _) as [[r d2] t2].
    exact I.
Qed.

(** X13.  A poll that is not the first run leaves the MAC address, the
    hardware version and the firmware version of the accessory context as
    they were, whatever the reply. *)
Theorem later_polls_never_touch_identity :
  forall (reply : outcome (option pollPayload)) (idle : bool) (d : device),
    macAddress (accessory (final (requestUpdate parseError lang_timeout false reply idle d)))
      = macAddress (accessory d)
    /\ hardware (accessory (final (requestUpdate parseError lang_timeout false reply idle d)))
      = hardware (accessory d)
    /\ firmware (accessory (final (requestUpdate parseError lang_timeout false reply idle d)))
      = firmware (accessory d).
Proof.
  intros reply idle d.
  destruct (updateInProgress d) eqn:P.
  { rewrite (requestUpdate_skipped parseError lang_timeout false reply idle d P).
    repeat split. }
  destruct (requestUpdate_identity_of_task false reply idle d P) as (M & H & F & _).
  rewrite M, H, F. clear M H F.
  destruct (result (pollTask false reply d)) as [[]|err] eqn:R.
  - destruct reply as [[[[[dg [[hw fw on]|]]|]]|]|err].
    + destruct (proj2 (pollTask_context false dg hw fw on d) R) as (_ & _ & M & H & F).
      rewrite M, H, F. destruct fw; repeat split.
    + destruct (pollTask_spec false
                  (Resolved (Some {| all := Some {| digest := dg; system := None |} |})) d)
        as (_ & _ & _ & _ & _ & _ & _ & T).
      rewrite (T _ eq_refl eq_refl) in R. discriminate.
    + unfold pollTask, sendUpdate, bind, modify, emit, get, when, ret, final. simpl.
      destruct (enableDebugLogging d); repeat split.
    + unfold pollTask, sendUpdate, bind, modify, emit, get, when, ret, throw, result in R.
      simpl in R. destruct (enableDebugLogging d); discriminate.
    + unfold pollTask, sendUpdate, bind, modify, emit, get, when, ret, throw, result in R.
      simpl in R. discriminate.
  - destruct (pollTask_spec false reply d) as (_ & _ & _ & _ & _ & _ & T & _).
    destruct (T err R) as [A _]. rewrite A. repeat split.
Qed.

(** X14.  The first poll of a response with hardware and firmware stores the
    MAC address in upper case (a fixed point of [toUpperCase]), the hardware
    and firmware versions and the inner IP address. *)
Theorem first_poll_captures_identity :
  forall (dg : option digestInfo) (hw : hardwareInfo) (fw : firmwareInfo)
         (on : option onlineInfo) (mac : string) (idle : bool) (d : device),
    updateInProgress d = false ->
    hw_macAddress hw = Some mac ->
    macAddress (accessory (final (requestUpdate parseError lang_timeout true
        (Resolved (Some {| all := Some {| digest := dg;
             system := Some {| sys_hardware := Some hw; sys_firmware := Some fw;
                               sys_online := on |} |} |})) idle d)))
      = Some (toUpperCase mac)
    /\ toUpperCase (toUpperCase mac) = toUpperCase mac
    /\ hardware (accessory (final (requestUpdate parseError lang_timeout true
        (Resolved (Some {| all := Some {| digest := dg;
             system := Some {| sys_hardware := Some hw; sys_firmware := Some fw;
                               sys_online := on |} |} |})) idle d)))
      = hw_version hw
    /\ firmware (accessory (final (requestUpdate parseError lang_timeout true
        (Resolved (Some {| all := Some {| digest := dg;
             system := Some {| sys_hardware := Some hw; sys_firmware := Some fw;
                               sys_online := on |} |} |})) idle d)))
      = fw_version fw
    /\ ipAddress (accessory (final (requestUpdate parseError lang_timeout true
        (Resolved (Some {| all := Some {| digest := dg;
             system := Some {| sys_hardware := Some hw; sys_firmware := Some fw;
                               sys_online := on |} |} |})) idle d)))
      = fw_innerIp fw.
Proof.
  intros dg hw fw on mac idle d P Hm.
  destruct (requestUpdate_identity_of_task true
              (Resolved (Some {| all := Some {| digest := dg;
                 system := Some {| sys_hardware := Some hw; sys_firmware := Some fw;
                                   sys_online := on |} |} |})) idle d P)
    as (M & H & F & I).
  rewrite M, H, F, I. clear M H F I.
  pose proof (proj1 (pollTask_context true dg (Some hw) (Some fw) on d)) as R.
  simpl in R. rewrite Hm in R.
  destruct (proj2 (pollTask_context true dg (Some hw) (Some fw) on d) R)
    as (I & _ & M & H & F).
  rewrite I, M, H, F. simpl. rewrite Hm. simpl.
  repeat split. apply toUpperCase_idempotent.
Qed.

(** X15.  A first-run response whose hardware has no [macAddress] makes the
    handler throw at [toUpperCase]: the task leaves the accessory context
    as it was, so neither the IP address nor the firmware version is
    captured, and [requestUpdate] swallows the error. *)
Theorem first_poll_without_mac_fails_before_capture :
  forall (dg : option digestInfo) (hw : hardwareInfo) (fw : option firmwareInfo)
         (on : option onlineInfo) (idle : bool) (d : device),
    updateInProgress d = false ->
    hw_macAddress hw = None ->
    result (pollTask true
        (Resolved (Some {| all := Some {| digest := dg;
             system := Some {| sys_hardware := Some hw; sys_firmware := fw;
                               sys_online := on |} |} |})) d)
      = Throw (TypeError "toUpperCase")
    /\ accessory (final (pollTask true
        (Resolved (Some {| all := Some {| digest := dg;
             system := Some {| sys_hardware := Some hw; sys_firmware := fw;
                               sys_online := on |} |} |})) d))
      = accessory d
    /\ ipAddress (accessory (final (requestUpdate parseError lang_timeout true
        (Resolved (Some {| all := Some {| digest := dg;
             system := Some {| sys_hardware := Some hw; sys_firmware := fw;
                               sys_online := on |} |} |})) idle d)))
      = ipAddress (accessory d)
    /\ firmware (accessory (final (requestUpdate parseError lang_timeout true
        (Resolved (Some {| all := Some {| digest := dg;
             system := Some {| sys_hardware := Some hw; sys_firmware := fw;
                               sys_online := on |} |} |})) idle d)))
      = firmware (accessory d)
    /\ result (requestUpdate parseError lang_timeout true
        (Resolved (Some {| all := Some {| digest := dg;
             system := Some {| sys_hardware := Some hw; sys_firmware := fw;
                               sys_online := on |} |} |})) idle d)
      = Normal tt.
Proof.
  intros dg hw fw on idle d P Hm.
  set (reply := Resolved (Some {| all := Some {| digest := dg;
             system := Some {| sys_hardware := Some hw; sys_firmware := fw;
                               sys_online := on |} |} |})).
  pose proof (proj1 (pollTask_context true dg (Some hw) fw on d)) as R.
  simpl in R. rewrite Hm in R. fold reply in R.
  destruct (pollTask_spec true reply d) as (_ & _ & _ & _ & _ & _ & T & _).
  destruct (T _ R) as [A _].
  destruct (requestUpdate_identity_of_task true reply idle d P) as (_ & _ & F & I).
  destruct (requestUpdate_failed parseError lang_timeout true reply idle d _ P R)
    as (_ & _ & N).
  rewrite F, I, A. repeat split; assumption.
Qed.

(** X16.  A response without [all] is ignored, on the first run too: beside
    the request and the debug log no collaborator is called, so there is no
    accessory update, and only [updateInProgress] is written. *)
Theorem poll_response_without_all_is_ignored :
  forall (firstRun idle : bool) (d : device),
    updateInProgress d = false ->
    requestUpdate parseError lang_timeout firstRun
      (Resolved (Some {| all := None |})) idle d
    = (Normal tt,
       (if idle then set_updateInProgress false (set_updateInProgress true d)
        else set_updateInProgress true d),
       SendUpdate pollCommand :: (if enableDebugLogging d then [Log incPoll] else [])).
Proof.
  intros firstRun idle d P.
  rewrite (requestUpdate_run parseError lang_timeout firstRun _ idle d P).
  unfold pollTask, sendUpdate, bind, modify, emit, get, when, ret. simpl.
  destruct (enableDebugLogging d); reflexivity.
Qed.

End MoreRequests.

(** ** Start-up *)

Lemma characteristic_eqb_eq (a b : characteristic) :
  characteristic_eqb a b = true <-> a = b.
Proof. destruct a, b; simpl; split; intro H; try discriminate; reflexivity. Qed.

Lemma testCharacteristic_In (c : characteristic) (s : service) :
  testCharacteristic c s = true <-> In c (characteristics s).
Proof.
  unfold testCharacteristic. rewrite existsb_exists. split.
  - intros (x & I & E). apply characteristic_eqb_eq in E. now subst.
  - intro I. exists c. split; [exact I | now apply characteristic_eqb_eq].
Qed.

Section StartupProperties.

Variable parseErrorHiding : jsError -> list string -> string.
Variable lang_timeout : string.
Variable defaults : defaultValues.
Variable freshOutletInUse : option bool.

Lemma ensureCharacteristic_spec (c : characteristic) (s : service) :
  testCharacteristic c (fst (ensureCharacteristic freshOutletInUse c s)) = true
  /\ (forall c', testCharacteristic c' s = true ->
        testCharacteristic c' (fst (ensureCharacteristic freshOutletInUse c s)) = true)
  /\ (NoDup (characteristics s) ->
        NoDup (characteristics (fst (ensureCharacteristic freshOutletInUse c s))))
  /\ added (snd (ensureCharacteristic freshOutletInUse c s))
     = (if testCharacteristic c s then [] else [c])
  /\ intervals (snd (ensureCharacteristic freshOutletInUse c s)) = []
  /\ powerPollCalls (snd (ensureCharacteristic freshOutletInUse c s)) = O
  /\ requests (snd (ensureCharacteristic freshOutletInUse c s)) = []
  /\ (c <> OutletInUse \/ testCharacteristic c s = true ->
      outletInUse (fst (ensureCharacteristic freshOutletInUse c s)) = outletInUse s).
Proof.
  unfold ensureCharacteristic.
  destruct (testCharacteristic c s) eqn:T; simpl.
  - repeat split; auto.
  - repeat split; auto.
    + unfold testCharacteristic. simpl. rewrite existsb_app. simpl.
      rewrite (proj2 (characteristic_eqb_eq c c) eq_refl). apply orb_true_r.
    + intros c' H. unfold testCharacteristic in *. simpl.
      rewrite existsb_app, H. reflexivity.
    + intro N. apply NoDup_app; [exact N | repeat constructor; intros [] |].
      intros x I [<-|[]]. apply testCharacteristic_In in I. congruence.
    + intros [N|F]; [|discriminate]. destruct c; try reflexivity. contradiction.
Qed.


Lemma added_app (a b : list startupEvent) : added (a ++ b) = added a ++ added b.
Proof.
  induction a as [|e a IH]; [reflexivity|]. destruct e; simpl; rewrite IH; reflexivity.
Qed.

Lemma intervals_app (a b : list startupEvent) :
  intervals (a ++ b) = intervals a ++ intervals b.
Proof.
  induction a as [|e a IH]; [reflexivity|]. destruct e; simpl; rewrite IH; reflexivity.
Qed.

Lemma powerPollCalls_app (a b : list startupEvent) :
  powerPollCalls (a ++ b) = (powerPollCalls a + powerPollCalls b)%nat.
Proof.
  induction a as [|e a IH]; [reflexivity|]. destruct e; simpl; rewrite IH; reflexivity.
Qed.

Lemma requests_app (a b : list startupEvent) :
  requests (a ++ b) = requests a ++ requests b.
Proof.
  induction a as [|e a IH]; [reflexivity|].
  destruct e as [[]| | | | | | | | | | |]; simpl; rewrite IH; reflexivity.
Qed.

Lemma setupFailed_quiet (err : jsError) (d : device) :
  added (setupFailed parseErrorHiding lang_timeout err d) = []
  /\ intervals (setupFailed parseErrorHiding lang_timeout err d) = []
  /\ powerPollCalls (setupFailed parseErrorHiding lang_timeout err d) = O
  /\ requests (setupFailed parseErrorHiding lang_timeout err d) = [].
Proof. unfold setupFailed. destruct (enableDebugLogging d); repeat split. Qed.

(** X17.  When the first power request is rejected, given up by the queue,
    or answered without [electricity], then by the time
    [setupPowerReadings] is over it has added no characteristic, started no
    interval and no power poll, and left the cache alone.  An answer with
    [electricity] that arrives after the queue's timeout still completes
    the set-up: the abandoned task leaves the service and the cached in-use
    value as an answer in time does, makes the same calls after the
    request, and so starts one power poll and one interval of 60000 ms. *)
Theorem setup_without_power_readings_changes_nothing :
  forall (reply : outcome (option powerPayload)) (idle : bool) (s : service)
         (d : device),
    powerSupported reply = false ->
    snd (fst (setupPowerReadings parseErrorHiding lang_timeout freshOutletInUse
                reply idle s d)) = s
    /\ fst (fst (setupPowerReadings parseErrorHiding lang_timeout freshOutletInUse
                   reply idle s d))
       = (if idle then set_updateInProgress false (set_updateInProgress true d)
          else set_updateInProgress true d)
    /\ added (snd (setupPowerReadings parseErrorHiding lang_timeout freshOutletInUse
                     reply idle s d)) = []
    /\ intervals (snd (setupPowerReadings parseErrorHiding lang_timeout freshOutletInUse
                         reply idle s d)) = []
    /\ powerPollCalls (snd (setupPowerReadings parseErrorHiding lang_timeout
                              freshOutletInUse reply idle s d)) = O
    /\ requests (snd (setupPowerReadings parseErrorHiding lang_timeout freshOutletInUse
                        reply idle s d)) = [electricityCommand]
    /\ (forall (res : option powerPayload) (frag : fragment) (s' : service)
               (d' : device),
          powerFragment res = Some frag ->
          snd (fst (setupTaskResumed freshOutletInUse res s' d'))
          = snd (fst (setupPowerReadings parseErrorHiding lang_timeout freshOutletInUse
                        (Resolved res) idle s' d'))
          /\ cacheInUse (fst (fst (setupTaskResumed freshOutletInUse res s' d')))
             = cacheInUse (fst (fst (setupPowerReadings parseErrorHiding lang_timeout
                                       freshOutletInUse (Resolved res) idle s' d')))
          /\ Collaborator (SendUpdate electricityCommand)
               :: snd (setupTaskResumed freshOutletInUse res s' d')
             = snd (setupPowerReadings parseErrorHiding lang_timeout freshOutletInUse
                      (Resolved res) idle s' d')
          /\ intervals (snd (setupTaskResumed freshOutletInUse res s' d'))
             = [(every_requestPowerReadings, 60000%Q)]
          /\ powerPollCalls (snd (setupTaskResumed freshOutletInUse res s' d')) = 1%nat).
Proof.
  intros reply idle s d U.
  rewrite <- !and_assoc. split.
  - rewrite !and_assoc. unfold setupPowerReadings, powerSupported in *.
    destruct reply as [res|err]; [destruct (powerFragment res); [discriminate|]|];
      simpl;
      match goal with
      | |- context [setupFailed _ _ ?e ?x] =>
          destruct (setupFailed_quiet e x)
            as (A & I & P & R)
      end;
      rewrite A, I, P, R; repeat split.
  - clear U.
    intros res frag s' d' F. unfold setupTaskResumed, setupPowerReadings. rewrite F.
    pose proof (ensureCharacteristic_spec OutletInUse s')
      as (_ & _ & _ & _ & I1 & P1 & _).
    destruct (ensureCharacteristic freshOutletInUse OutletInUse s') as [s1 e1].
    pose proof (ensureCharacteristic_spec CurrentConsumption s1)
      as (_ & _ & _ & _ & I2 & P2 & _).
    destruct (ensureCharacteristic freshOutletInUse CurrentConsumption s1) as [s2 e2].
    pose proof (ensureCharacteristic_spec Voltage s2)
      as (_ & _ & _ & _ & I3 & P3 & _).
    destruct (ensureCharacteristic freshOutletInUse Voltage s2) as [s3 e3].
    simpl in *.
    rewrite !intervals_app, !powerPollCalls_app, I1, I2, I3, P1, P2, P3.
    repeat split.
Qed.

(** X18.  When the first power request is answered with [electricity], the
    service ends up with OutletInUse, CurrentConsumption and Voltage; only
    those it lacked are added, so none is duplicated and none is lost; the
    cached in-use value is the one OutletInUse holds; one power poll is
    called at once and one is repeated every 60000 ms. *)
Theorem setup_with_power_readings_completes_the_service :
  forall (reply : outcome (option powerPayload)) (idle : bool) (s : service)
         (d : device),
    powerSupported reply = true ->
    (testCharacteristic OutletInUse
       (snd (fst (setupPowerReadings parseErrorHiding lang_timeout freshOutletInUse
                    reply idle s d))) = true
     /\ testCharacteristic CurrentConsumption
          (snd (fst (setupPowerReadings parseErrorHiding lang_timeout freshOutletInUse
                       reply idle s d))) = true
     /\ testCharacteristic Voltage
          (snd (fst (setupPowerReadings parseErrorHiding lang_timeout freshOutletInUse
                       reply idle s d))) = true)
    /\ (forall c, testCharacteristic c s = true ->
          testCharacteristic c
            (snd (fst (setupPowerReadings parseErrorHiding lang_timeout
                         freshOutletInUse reply idle s d))) = true)
    /\ (NoDup (characteristics s) ->
          NoDup (characteristics
                   (snd (fst (setupPowerReadings parseErrorHiding lang_timeout
                                freshOutletInUse reply idle s d)))))
    /\ added (snd (setupPowerReadings parseErrorHiding lang_timeout freshOutletInUse
                     reply idle s d))
       = filter (fun c => negb (testCharacteristic c s))
           [OutletInUse; CurrentConsumption; Voltage]
    /\ cacheInUse (fst (fst (setupPowerReadings parseErrorHiding lang_timeout
                               freshOutletInUse reply idle s d)))
       = (if testCharacteristic OutletInUse s then outletInUse s else freshOutletInUse)
    /\ updateInProgress (fst (fst (setupPowerReadings parseErrorHiding lang_timeout
                                     freshOutletInUse reply idle s d))) = true
    /\ intervals (snd (setupPowerReadings parseErrorHiding lang_timeout freshOutletInUse
                         reply idle s d))
       = [(every_requestPowerReadings, 60000%Q)]
    /\ powerPollCalls (snd (setupPowerReadings parseErrorHiding lang_timeout
                              freshOutletInUse reply idle s d)) = 1%nat
    /\ requests (snd (setupPowerReadings parseErrorHiding lang_timeout freshOutletInUse
                        reply idle s d)) = [electricityCommand].
Proof.
  intros reply idle s d U. unfold setupPowerReadings, powerSupported in *.
  destruct reply as [res|err]; [|discriminate].
  destruct (powerFragment res); [|discriminate].
  pose proof (ensureCharacteristic_spec OutletInUse s) as (T1 & K1 & N1 & A1 & I1 & P1 & R1 & V1).
  destruct (ensureCharacteristic freshOutletInUse OutletInUse s) as [s1 e1] eqn:E1.
  pose proof (ensureCharacteristic_spec CurrentConsumption s1)
    as (T2 & K2 & N2 & A2 & I2 & P2 & R2 & V2).
  destruct (ensureCharacteristic freshOutletInUse CurrentConsumption s1) as [s2 e2] eqn:E2.
  pose proof (ensureCharacteristic_spec Voltage s2)
    as (T3 & K3 & N3 & A3 & I3 & P3 & R3 & V3).
  destruct (ensureCharacteristic freshOutletInUse Voltage s2) as [s3 e3] eqn:E3.
  simpl in *.
  rewrite !added_app, !intervals_app, !powerPollCalls_app, !requests_app.
  rewrite A1, A2, A3, I1, I2, I3, P1, P2, P3, R1, R2, R3. simpl.
  repeat split; auto.
  - (* what was added *)
    assert (C2 : testCharacteristic CurrentConsumption s1
                 = testCharacteristic CurrentConsumption s).
    { unfold ensureCharacteristic in E1.
      destruct (testCharacteristic OutletInUse s); inversion E1; subst; [reflexivity|].
      unfold testCharacteristic. simpl. rewrite existsb_app. simpl.
      now rewrite !orb_false_r. }
    assert (C3 : testCharacteristic Voltage s2 = testCharacteristic Voltage s).
    { unfold ensureCharacteristic in E1, E2.
      destruct (testCharacteristic OutletInUse s);
        destruct (testCharacteristic CurrentConsumption s1);
        inversion E1; inversion E2; subst; try reflexivity;
        unfold testCharacteristic; simpl; rewrite ?existsb_app; simpl;
        rewrite ?existsb_app; simpl; now rewrite ?orb_false_r. }
    rewrite C2, C3.
    destruct (testCharacteristic OutletInUse s),
      (testCharacteristic CurrentConsumption s), (testCharacteristic Voltage s);
      reflexivity.
  - (* the cached in-use value *)
    unfold ensureCharacteristic in E1.
    destruct (testCharacteristic OutletInUse s); inversion E1; reflexivity.
Qed.

End StartupProperties.

Lemma getService_count (name : string) (services : list string) :
  getService name services = false -> count_occ string_dec services name = O.
Proof.
  unfold getService. induction services as [|s rest IH]; simpl; [reflexivity|].
  intro H. apply orb_false_iff in H as [E H].
  destruct (string_dec s name) as [->|N].
  - rewrite String.eqb_refl in E. discriminate.
  - now apply IH.
Qed.

Lemma getService_In (name : string) (services : list string) :
  getService name services = true <-> In name services.
Proof.
  unfold getService. rewrite existsb_exists. split.
  - intros (x & I & E). apply String.eqb_eq in E. now subst.
  - intro I. exists name. split; [exact I | apply String.eqb_refl].
Qed.

Lemma count_removeService (name x : string) (services : list string) :
  count_occ string_dec (removeService name services) x
  = if string_dec name x then pred (count_occ string_dec services x)
    else count_occ string_dec services x.
Proof.
  induction services as [|s rest IH]; simpl.
  - destruct (string_dec name x); reflexivity.
  - destruct (String.eqb name s) eqn:E.
    + apply String.eqb_eq in E. subst s.
      destruct (string_dec name x); [reflexivity|reflexivity].
    + apply String.eqb_neq in E. simpl.
      destruct (string_dec s x) as [->|Nx]; rewrite IH;
        destruct (string_dec name x) as [->|N]; try reflexivity.
      contradiction.
Qed.

(** One step of the loop of lines 36-40. *)
Lemma count_removed_if_present (name x : string) (services : list string) :
  count_occ string_dec
    (if getService name services then removeService name services else services) x
  = if string_dec name x then pred (count_occ string_dec services x)
    else count_occ string_dec services x.
Proof.
  destruct (getService name services) eqn:G.
  - apply count_removeService.
  - destruct (string_dec name x) as [<-|N]; [|reflexivity].
    now rewrite (getService_count name services G).
Qed.

Lemma cleanServices_services (services : list string) :
  fst (cleanServices services)
  = (let removed :=
       (fun l name => if getService name l then removeService name l else l)
         ((fun l name => if getService name l then removeService name l else l)
            ((fun l name => if getService name l then removeService name l else l)
               services "Outlet") "HeaterCooler") "AirPurifier" in
     if getService "Switch" removed then removed else removed ++ ["Switch"]).
Proof.
  unfold cleanServices. simpl.
  destruct (getService "Outlet" services); simpl;
    destruct (getService "HeaterCooler" _); simpl;
    destruct (getService "AirPurifier" _); simpl;
    destruct (getService "Switch" _); reflexivity.
Qed.

Lemma construct_services (defaults : defaultValues) (o : options)
    (services : list string) (onValue : bool) (ctx : context) :
  snd (fst (construct defaults o services onValue ctx)) = fst (cleanServices services).
Proof. unfold construct. destruct (cleanServices services). reflexivity. Qed.

(** X19.  After the constructor the accessory has a Switch service, added
    only when there was none; one service of each of Outlet, HeaterCooler
    and AirPurifier has been removed; every other service is kept. *)
Theorem constructor_leaves_one_switch_and_drops_old_services :
  forall (defaults : defaultValues) (o : options) (services : list string)
         (onValue : bool) (ctx : context),
    In "Switch" (snd (fst (construct defaults o services onValue ctx)))
    /\ count_occ string_dec (snd (fst (construct defaults o services onValue ctx)))
         "Switch"
       = Nat.max 1 (count_occ string_dec services "Switch")
    /\ (forall name, In name ["Outlet"; "HeaterCooler"; "AirPurifier"] ->
          count_occ string_dec (snd (fst (construct defaults o services onValue ctx)))
            name
          = pred (count_occ string_dec services name))
    /\ (forall name, ~ In name ["Outlet"; "HeaterCooler"; "AirPurifier"; "Switch"] ->
          count_occ string_dec (snd (fst (construct defaults o services onValue ctx)))
            name
          = count_occ string_dec services name).
Proof.
  intros defaults o services onValue ctx.
  rewrite construct_services, cleanServices_services. cbv zeta. cbv beta.
  set (l1 := if getService "Outlet" services
             then removeService "Outlet" services else services).
  set (l2 := if getService "HeaterCooler" l1
             then removeService "HeaterCooler" l1 else l1).
  set (l3 := if getService "AirPurifier" l2
             then removeService "AirPurifier" l2 else l2).
  assert (C : forall x, count_occ string_dec l3 x
              = if string_dec "AirPurifier" x then pred (count_occ string_dec services x)
                else if string_dec "HeaterCooler" x
                     then pred (count_occ string_dec services x)
                     else if string_dec "Outlet" x
                          then pred (count_occ string_dec services x)
                          else count_occ string_dec services x).
  { intro x. unfold l3, l2, l1. rewrite !count_removed_if_present.
    destruct (string_dec "AirPurifier" x) as [<-|?]; [reflexivity|].
    destruct (string_dec "HeaterCooler" x) as [<-|?]; reflexivity. }
  assert (S3 : count_occ string_dec l3 "Switch" = count_occ string_dec services "Switch").
  { rewrite C. reflexivity. }
  destruct (getService "Switch" l3) eqn:G.
  - pose proof (proj1 (getService_In _ _) G) as I.
    repeat split.
    + exact I.
    + rewrite S3. apply (count_occ_In string_dec) in I. rewrite S3 in I. lia.
    + intros name [<-|[<-|[<-|[]]]]; rewrite C; reflexivity.
    + intros name N. rewrite C. simpl in N.
      repeat match goal with
             | |- context [string_dec ?a name] =>
                 destruct (string_dec a name); [exfalso; tauto|]
             end.
      reflexivity.
  - pose proof (getService_count _ _ G) as Z. rewrite S3 in Z.
    repeat split.
    + apply in_or_app. right. now left.
    + rewrite count_occ_app, S3, Z. reflexivity.
    + intros name [<-|[<-|[<-|[]]]]; rewrite count_occ_app, C; simpl; lia.
    + intros name N. rewrite count_occ_app, C. simpl in N.
      change (count_occ string_dec ["Switch"] name)
        with (if string_dec "Switch" name then 1%nat else 0%nat).
      destruct (string_dec "Switch" name); [exfalso; tauto|].
      repeat match goal with
             | |- context [string_dec ?a name] =>
                 destruct (string_dec a name); [exfalso; tauto|]
             end.
      lia.
Qed.

(** X20.  A configured in-use threshold of 0, like a missing one, is
    replaced by the default: on a freshly constructed handler a first power
    reading marks the outlet in use exactly when the switch is on and the
    scaled power exceeds the default.  Any other configured threshold is
    the one compared against. *)
Theorem zero_threshold_falls_back_to_the_default :
  forall (defaults : defaultValues) (o : options) (services : list string)
         (onValue : bool) (ctx : context) (p : Z),
    (match opt_inUsePowerThreshold o with
     | Some q => (q == 0)%Q
     | None => True
     end ->
     cacheInUse
       (final (applyUpdate {| onoff := None; power := Some p; voltage := None |}
                 (fst (fst (construct defaults o services onValue ctx)))))
     = Some (onValue
             && Qgtb (scaledPower p) (default_inUsePowerThreshold defaults)))
    /\ (forall q, opt_inUsePowerThreshold o = Some q -> ~ (q == 0)%Q ->
        cacheInUse
          (final (applyUpdate {| onoff := None; power := Some p; voltage := None |}
                    (fst (fst (construct defaults o services onValue ctx)))))
        = Some (onValue && Qgtb (scaledPower p) q)).
Proof.
  intros defaults o services onValue ctx p.
  assert (E : forall d,
             d = fst (fst (construct defaults o services onValue ctx)) ->
             cacheInUse
               (final (applyUpdate {| onoff := None; power := Some p; voltage := None |} d))
             = Some (onValue
                     && Qgtb (scaledPower p)
                          (orDefault (opt_inUsePowerThreshold o)
                             (default_inUsePowerThreshold defaults)))).
  { intros d ->. rewrite applyUpdate_cacheInUse, applyUpdate_cacheState.
    unfold construct. destruct (cleanServices services). reflexivity. }
  rewrite (E _ eq_refl). unfold orDefault. split.
  - destruct (opt_inUsePowerThreshold o) as [q|]; [|reflexivity].
    intro Z. now rewrite (Qeq_eq_bool _ _ Z).
  - intros q -> N. destruct (Qeq_bool q 0) eqn:B; [|reflexivity].
    apply Qeq_bool_eq in B. contradiction.
Qed.

(** ** The further properties at concrete inputs *)

(** X6 at [switch_on] and the reading of 12 W. *)
Lemma in_use_is_set_only_while_cached_on_witness :
  cacheInUse switch_on <> Some true
  /\ cacheInUse (final (applyUpdate reading_12000_2300 switch_on)) = Some true
  /\ cacheState (final (applyUpdate reading_12000_2300 switch_on)) = true.
Proof.
  destruct (in_use_is_set_only_while_cached_on reading_12000_2300 switch_on
              ltac:(discriminate) eq_refl) as [C _].
  split; [discriminate|]. split; [reflexivity | exact C].
Defined.

(** X11: a command goes out and the queue stays busy; the poll that follows
    is dropped. *)
Lemma poll_is_dropped_until_the_queue_is_idle_witness :
  true <> cacheState switch_off
  /\ events (requestUpdate message_of "request timed out" false
               (Resolved (Some poll_togglex_on)) true
               (final (internalStateUpdate message_of "request timed out" true
                         (Resolved tt) false switch_off))) = [].
Proof.
  destruct (poll_is_dropped_until_the_queue_is_idle message_of "request timed out"
              switch_off true (Resolved tt) false false
              (Resolved (Some poll_togglex_on)) true ltac:(discriminate))
    as [Dropped _].
  split; [discriminate|]. rewrite (Dropped eq_refl). reflexivity.
Defined.

(** X12: switching on times out, is tried again and accepted, and then the
    timer of the first attempt fires. *)
Lemma late_revert_timer_writes_the_newer_accepted_state_witness :
  true <> cacheState switch_off
  /\ events (fire revertOn
               (final (internalStateUpdate message_of "request timed out" true
                         (Resolved tt) true (final timed_out_command))))
     = [UpdateCharacteristic On (VBool true)].
Proof.
  destruct (late_revert_timer_writes_the_newer_accepted_state message_of
              "request timed out" switch_off true TimeoutError true true
              ltac:(discriminate)) as [W _].
  split; [discriminate | exact W].
Defined.

(** X14 at the first poll of [switch_off]. *)
Lemma first_poll_captures_identity_witness :
  updateInProgress switch_off = false
  /\ hw_macAddress sample_hardware = Some "48:e1:e9:0a:bc:de"
  /\ macAddress (accessory (final (requestUpdate message_of "request timed out" true
        (Resolved (Some {| all := Some {| digest := None;
             system := Some {| sys_hardware := Some sample_hardware;
                               sys_firmware := Some sample_firmware;
                               sys_online := None |} |} |})) true switch_off)))
     = Some "48:E1:E9:0A:BC:DE"
  /\ ipAddress (accessory (final (requestUpdate message_of "request timed out" true
        (Resolved (Some {| all := Some {| digest := None;
             system := Some {| sys_hardware := Some sample_hardware;
                               sys_firmware := Some sample_firmware;
                               sys_online := None |} |} |})) true switch_off)))
     = Some "192.168.1.20".
Proof.
  destruct (first_poll_captures_identity message_of "request timed out" None
              sample_hardware sample_firmware None "48:e1:e9:0a:bc:de" true
              switch_off eq_refl eq_refl) as (M & _ & _ & _ & I).
  split; [reflexivity|]. split; [reflexivity|]. split; [exact M | exact I].
Defined.

(** X15 at the first poll of [switch_off]. *)
Lemma first_poll_without_mac_fails_before_capture_witness :
  updateInProgress switch_off = false
  /\ hw_macAddress hardware_without_mac = None
  /\ ipAddress (accessory (final (requestUpdate message_of "request timed out" true
        (Resolved (Some {| all := Some {| digest := None;
             system := Some {| sys_hardware := Some hardware_without_mac;
                               sys_firmware := Some sample_firmware;
                               sys_online := None |} |} |})) true switch_off)))
     = None.
Proof.
  destruct (first_poll_without_mac_fails_before_capture message_of "request timed out"
              None hardware_without_mac (Some sample_firmware) None true switch_off
              eq_refl eq_refl) as (_ & _ & I & _).
  split; [reflexivity|]. split; [reflexivity | exact I].
Defined.

(** X16 at the first poll of [switch_off]. *)
Lemma poll_response_without_all_is_ignored_witness :
  updateInProgress switch_off = false
  /\ accessoryUpdates
       (events (requestUpdate message_of "request timed out" true
                  (Resolved (Some {| all := None |})) true switch_off)) = O.
Proof.
  split; [reflexivity|].
  rewrite (poll_response_without_all_is_ignored message_of "request timed out"
             true true switch_off eq_refl).
  reflexivity.
Defined.

(** X17 at [switch_service]: answered without readings; given up by the
    queue, at [timed_out_setup]; and the late answer, at [late_setup]. *)
Lemma setup_without_power_readings_changes_nothing_witness :
  powerSupported no_power_reply = false
  /\ snd (fst (setupPowerReadings hidden_message_of "request timed out" (Some false)
                 no_power_reply true switch_service switch_off)) = switch_service
  /\ powerSupported (Rejected TimeoutError) = false
  /\ snd (fst timed_out_setup) = switch_service
  /\ added (snd timed_out_setup) = []
  /\ characteristics (snd (fst late_setup))
     = [On; OutletInUse; CurrentConsumption; Voltage]
  /\ intervals (snd late_setup) = [(every_requestPowerReadings, 60000%Q)]
  /\ powerPollCalls (snd late_setup) = 1%nat.
Proof.
  destruct (setup_without_power_readings_changes_nothing hidden_message_of
              "request timed out" (Some false) no_power_reply true switch_service
              switch_off eq_refl) as [S _].
  destruct (setup_without_power_readings_changes_nothing hidden_message_of
              "request timed out" (Some false) (Rejected TimeoutError) true
              switch_service switch_off eq_refl) as (S2 & _ & A2 & _ & _ & _ & L).
  destruct (L (Some {| electricity := Some reading_12000_2300 |}) reading_12000_2300
              (snd (fst timed_out_setup)) (fst (fst timed_out_setup)) eq_refl)
    as (LS & _ & _ & LI & LP).
  split; [reflexivity|]. split; [exact S|]. split; [reflexivity|].
  split; [exact S2|]. split; [exact A2|].
  split; [unfold late_setup; rewrite LS; reflexivity|].
  split; [exact LI | exact LP].
Defined.

(** X18 at [outlet_service], which has OutletInUse already: the other two
    characteristics are added, and the cached in-use value is the one the
    service holds. *)
Lemma setup_with_power_readings_completes_the_service_witness :
  powerSupported power_reply = true
  /\ added (snd (setupPowerReadings hidden_message_of "request timed out" (Some false)
                   power_reply true outlet_service switch_off))
     = [CurrentConsumption; Voltage]
  /\ cacheInUse (fst (fst (setupPowerReadings hidden_message_of "request timed out"
                             (Some false) power_reply true outlet_service switch_off)))
     = Some true.
Proof.
  destruct (setup_with_power_readings_completes_the_service hidden_message_of
              "request timed out" (Some false) power_reply true outlet_service
              switch_off eq_refl) as (_ & _ & _ & A & C & _).
  split; [reflexivity|]. split; [exact A | exact C].
Defined.
